(** * faulthandler: the fault-handler controller and the watchdog timer

    A shallow embedding of [src/faulthandler/handler.c].  The C globals, the
    kernel's signal dispositions and timer, and the interpreter's error
    indicator are the fields of one process state; every function of
    handler.c is a computation in a small state monad that also records the
    calls it makes to the operating system and to the host runtime, each with
    the process state it was issued in.

    Configuration embedded: HAVE_SIGACTION and HAVE_SIGALTSTACK defined;
    SIGBUS and SIGILL each defined or not (a [platform] field). *)

From Stdlib Require Import ZArith Ascii String Lia.
From stdpp Require Import base list strings.

Local Open Scope Z_scope.

(** ** Platform constants and outcomes of external calls *)

(** The macros handler.c takes from <signal.h>. *)
Record platform := {
  SIGBUS : option Z;      (* None: the macro is not defined *)
  SIGILL : option Z;
  SIGFPE : Z;
  SIGSEGV : Z;
  SIGALRM : Z;
  SIGSTKSZ : Z;
  SS_ONSTACK : Z;
  SA_ONSTACK : Z;
  (* what the C library's signal() installs with the handler *)
  signal_flags : Z;
  signal_mask : Z -> list Z
}.

(** What the calls that leave handler.c answer: the C library, the kernel and
    the interpreter. *)
Record environ := {
  stderr_fileno : Z;                      (* fileno(stderr) *)
  PyMem_Malloc_result : option Z;         (* None: NULL *)
  sigaction_err : Z -> Z;                 (* what sigaction/signal answer for a signal number; 0 is success *)
  sigaltstack_err : Z;
  PyGILState_GetThisThreadState : option Z;   (* None: NULL *)
  dump_backtrace_threads_errmsg : option string   (* None: NULL, all threads dumped *)
}.

(** ** Data *)

Inductive sighandler :=
| SIG_DFL
| SIG_IGN
| SIG_ERR
| fn_faulthandler_fatal_error
| fn_faulthandler_alarm
| fn_other (addr : Z).

(** struct sigaction *)
Record sigaction_t := {
  sa_handler : sighandler;
  sa_mask : list Z;
  sa_flags : Z
}.

(** stack_t *)
Record stack_t := {
  ss_sp : option Z;
  ss_flags : Z;
  ss_size : Z
}.

(** fault_handler_t; [name] is a [const char*], NULL until enable fills it. *)
Record fault_handler_t := {
  signum : Z;
  enabled : Z;
  name : option string;
  previous : sigaction_t
}.

(** The anonymous struct of [fault_alarm]. *)
Record fault_alarm_t := {
  fd : Z;
  delay : Z;
  repeat : Z;
  all_threads : Z
}.

Inductive PyObject := Py_None | Py_True | Py_False.

Inductive exception := PyExc_RuntimeError | PyExc_ValueError.

Inductive exit_func := fn_faulthandler_unload.

(** The process: the statics of handler.c, then what the interpreter and the
    kernel hold. *)
Record proc := {
  faulthandler_enabled : Z;
  fatal_error_fd : Z;
  stack : stack_t;
  fault_handlers : list fault_handler_t;
  fault_alarm : fault_alarm_t;
  py_err : option (exception * string);      (* the error indicator *)
  sig_disp : Z -> sigaction_t;                (* disposition of each signal *)
  alarm_timer : Z;                            (* seconds until SIGALRM, 0: none pending *)
  altstack : option stack_t;                  (* the signal stack in force *)
  exitfuncs : list exit_func                  (* registered with Py_AtExit *)
}.

Inductive event :=
| EvFflushStderr
| EvWrite (fd : Z) (text : string)
| EvDumpBacktrace (fd : Z)
| EvDumpBacktraceThreads (fd : Z) (tstate : Z)
| EvSigaction (sig : Z) (act : sigaction_t)
| EvSignal (sig : Z) (h : sighandler)
| EvSigaltstack (ss : stack_t)
| EvMalloc (size : Z)
| EvFree (ptr : Z)
| EvAtExit (f : exit_func)
| EvAlarm (seconds : Z).

(** A call together with the process state it was issued in. *)
Definition trace := list (event * proc).

Definition with_faulthandler_enabled (v : Z) (s : proc) : proc :=
  {| faulthandler_enabled := v; fatal_error_fd := fatal_error_fd s;
     stack := stack s; fault_handlers := fault_handlers s;
     fault_alarm := fault_alarm s; py_err := py_err s;
     sig_disp := sig_disp s; alarm_timer := alarm_timer s;
     altstack := altstack s; exitfuncs := exitfuncs s |}.

Definition with_fatal_error_fd (v : Z) (s : proc) : proc :=
  {| faulthandler_enabled := faulthandler_enabled s; fatal_error_fd := v;
     stack := stack s; fault_handlers := fault_handlers s;
     fault_alarm := fault_alarm s; py_err := py_err s;
     sig_disp := sig_disp s; alarm_timer := alarm_timer s;
     altstack := altstack s; exitfuncs := exitfuncs s |}.

Definition with_stack (v : stack_t) (s : proc) : proc :=
  {| faulthandler_enabled := faulthandler_enabled s;
     fatal_error_fd := fatal_error_fd s;
     stack := v; fault_handlers := fault_handlers s;
     fault_alarm := fault_alarm s; py_err := py_err s;
     sig_disp := sig_disp s; alarm_timer := alarm_timer s;
     altstack := altstack s; exitfuncs := exitfuncs s |}.

Definition with_fault_handlers (v : list fault_handler_t) (s : proc) : proc :=
  {| faulthandler_enabled := faulthandler_enabled s;
     fatal_error_fd := fatal_error_fd s;
     stack := stack s; fault_handlers := v;
     fault_alarm := fault_alarm s; py_err := py_err s;
     sig_disp := sig_disp s; alarm_timer := alarm_timer s;
     altstack := altstack s; exitfuncs := exitfuncs s |}.

Definition with_fault_alarm (v : fault_alarm_t) (s : proc) : proc :=
  {| faulthandler_enabled := faulthandler_enabled s;
     fatal_error_fd := fatal_error_fd s;
     stack := stack s; fault_handlers := fault_handlers s;
     fault_alarm := v; py_err := py_err s;
     sig_disp := sig_disp s; alarm_timer := alarm_timer s;
     altstack := altstack s; exitfuncs := exitfuncs s |}.

Definition with_py_err (v : option (exception * string)) (s : proc) : proc :=
  {| faulthandler_enabled := faulthandler_enabled s;
     fatal_error_fd := fatal_error_fd s;
     stack := stack s; fault_handlers := fault_handlers s;
     fault_alarm := fault_alarm s; py_err := v;
     sig_disp := sig_disp s; alarm_timer := alarm_timer s;
     altstack := altstack s; exitfuncs := exitfuncs s |}.

Definition with_sig_disp (v : Z -> sigaction_t) (s : proc) : proc :=
  {| faulthandler_enabled := faulthandler_enabled s;
     fatal_error_fd := fatal_error_fd s;
     stack := stack s; fault_handlers := fault_handlers s;
     fault_alarm := fault_alarm s; py_err := py_err s;
     sig_disp := v; alarm_timer := alarm_timer s;
     altstack := altstack s; exitfuncs := exitfuncs s |}.

Definition with_alarm_timer (v : Z) (s : proc) : proc :=
  {| faulthandler_enabled := faulthandler_enabled s;
     fatal_error_fd := fatal_error_fd s;
     stack := stack s; fault_handlers := fault_handlers s;
     fault_alarm := fault_alarm s; py_err := py_err s;
     sig_disp := sig_disp s; alarm_timer := v;
     altstack := altstack s; exitfuncs := exitfuncs s |}.

Definition with_altstack (v : option stack_t) (s : proc) : proc :=
  {| faulthandler_enabled := faulthandler_enabled s;
     fatal_error_fd := fatal_error_fd s;
     stack := stack s; fault_handlers := fault_handlers s;
     fault_alarm := fault_alarm s; py_err := py_err s;
     sig_disp := sig_disp s; alarm_timer := alarm_timer s;
     altstack := v; exitfuncs := exitfuncs s |}.

Definition with_exitfuncs (v : list exit_func) (s : proc) : proc :=
  {| faulthandler_enabled := faulthandler_enabled s;
     fatal_error_fd := fatal_error_fd s;
     stack := stack s; fault_handlers := fault_handlers s;
     fault_alarm := fault_alarm s; py_err := py_err s;
     sig_disp := sig_disp s; alarm_timer := alarm_timer s;
     altstack := altstack s; exitfuncs := v |}.

(** Field updates of one table entry ([handler->field = v]). *)
Definition with_signum (v : Z) (h : fault_handler_t) : fault_handler_t :=
  {| signum := v; enabled := enabled h; name := name h; previous := previous h |}.
Definition with_enabled (v : Z) (h : fault_handler_t) : fault_handler_t :=
  {| signum := signum h; enabled := v; name := name h; previous := previous h |}.
Definition with_name (v : option string) (h : fault_handler_t) : fault_handler_t :=
  {| signum := signum h; enabled := enabled h; name := v; previous := previous h |}.
Definition with_previous (v : sigaction_t) (h : fault_handler_t) : fault_handler_t :=
  {| signum := signum h; enabled := enabled h; name := name h; previous := v |}.

(** Field updates of [fault_alarm]. *)
Definition with_fd (v : Z) (a : fault_alarm_t) : fault_alarm_t :=
  {| fd := v; delay := delay a; repeat := repeat a; all_threads := all_threads a |}.
Definition with_delay (v : Z) (a : fault_alarm_t) : fault_alarm_t :=
  {| fd := fd a; delay := v; repeat := repeat a; all_threads := all_threads a |}.
Definition with_repeat (v : Z) (a : fault_alarm_t) : fault_alarm_t :=
  {| fd := fd a; delay := delay a; repeat := v; all_threads := all_threads a |}.
Definition with_all_threads (v : Z) (a : fault_alarm_t) : fault_alarm_t :=
  {| fd := fd a; delay := delay a; repeat := repeat a; all_threads := v |}.

(** One signal's disposition replaced. *)
Definition upd (d : Z -> sigaction_t) (sig : Z) (a : sigaction_t) : Z -> sigaction_t :=
  fun x => if x =? sig then a else d x.

(** ** The monad: state, a log of calls, and a crash on undefined behaviour *)

Inductive outcome (A : Type) :=
| Done (a : A)
| Crash.
Arguments Done {A} a.
Arguments Crash {A}.

Definition M (A : Type) : Type := proc -> outcome A * proc * trace.

Definition ret {A} (a : A) : M A := fun s => (Done a, s, []).

Definition bind {A B} (m : M A) (f : A -> M B) : M B :=
  fun s =>
    match m s with
    | (Done a, s1, t1) =>
        match f a s1 with
        | (r, s2, t2) => (r, s2, t1 ++ t2)
        end
    | (Crash, s1, t1) => (Crash, s1, t1)
    end.

Declare Scope prog_scope.
Delimit Scope prog_scope with prog.
Notation "x <- m ;; k" := (bind m (fun x => k))
  (at level 100, m at level 99, k at level 200, right associativity) : prog_scope.
Notation "m ;; k" := (bind m (fun _ => k))
  (at level 100, k at level 200, right associativity) : prog_scope.
Local Open Scope prog_scope.

Definition get {A} (f : proc -> A) : M A := fun s => (Done (f s), s, []).
Definition modify (f : proc -> proc) : M unit := fun s => (Done tt, f s, []).
Definition call (e : event) : M unit := fun s => (Done tt, s, [(e, s)]).
Definition crash {A} : M A := fun s => (Crash, s, []).

(** [for (i = start; i < start + n; i++) body(i)] *)
Fixpoint for_loop (i : nat) (n : nat) (body : nat -> M unit) : M unit :=
  match n with
  | O => ret tt
  | S n' => body i ;; for_loop (S i) n' body
  end.

Definition result_of {A} (x : outcome A * proc * trace) : outcome A := fst (fst x).
Definition state_of {A} (x : outcome A * proc * trace) : proc := snd (fst x).
Definition trace_of {A} (x : outcome A * proc * trace) : trace := snd x.
Definition events_of {A} (x : outcome A * proc * trace) : list event := map fst (snd x).

(** ** The calls that leave handler.c *)

(** unsigned int conversion of an int argument *)
Definition to_unsigned (z : Z) : Z := z mod 2 ^ 32.

(** The one-character string of C's newline escape. *)
Definition NL : string := String "010"%char EmptyString.

Section Model.

Variable P : platform.
Variable E : environ.

(** Modelled from the spec: the PUTS macro of faulthandler.h, a header that
    is not among the sources: a raw write of the bytes of a C string to a
    descriptor, with no buffering.  A NULL string is undefined behaviour. *)
Definition PUTS (fd : Z) (str : option string) : M unit :=
  match str with
  | Some text => call (EvWrite fd text)
  | None => crash
  end.

(** Modelled from the spec: [faulthandler_dump_backtrace(fd)] of the
    backtrace provider, which is not among the sources: it writes the stack
    of the current execution context to [fd], always succeeds, and touches
    nothing of handler.c. *)
Definition faulthandler_dump_backtrace (fd : Z) : M unit :=
  call (EvDumpBacktrace fd).

(** Modelled from the spec: [faulthandler_dump_backtrace_threads(fd, tstate)]
    of the backtrace provider, which is not among the sources: it dumps
    every known execution context to [fd]; the result is its error message,
    NULL when no provider-level failure occurred. *)
Definition faulthandler_dump_backtrace_threads (fd : Z) (tstate : Z)
  : M (option string) :=
  call (EvDumpBacktraceThreads fd tstate) ;;
  ret (dump_backtrace_threads_errmsg E).

(** [sigaction(sig, &act, oldact)]: the return value and what is stored
    through [oldact]; on failure nothing is stored and nothing changes. *)
Definition sigaction (sig : Z) (act : sigaction_t) : M (Z * option sigaction_t) :=
  fun s =>
    if sigaction_err E sig =? 0
    then (Done (0, Some (sig_disp s sig)),
          with_sig_disp (upd (sig_disp s) sig act) s,
          [(EvSigaction sig act, s)])
    else (Done (sigaction_err E sig, None), s, [(EvSigaction sig act, s)]).

(** [signal(sig, h)]: the previous handler, or SIG_ERR.  The flags and the
    mask that go with the handler are the C library's choice (with glibc:
    SA_RESTART, and the signal itself masked while its handler runs). *)
Definition signal (sig : Z) (h : sighandler) : M sighandler :=
  fun s =>
    if sigaction_err E sig =? 0
    then (Done (sa_handler (sig_disp s sig)),
          with_sig_disp
            (upd (sig_disp s) sig
               {| sa_handler := h; sa_mask := signal_mask P sig;
                  sa_flags := signal_flags P |}) s,
          [(EvSignal sig h, s)])
    else (Done SIG_ERR, s, [(EvSignal sig h, s)]).

(** [alarm(seconds)]: replaces the pending timer, 0 cancels it; the result is
    what was left of the previous one. *)
Definition alarm (seconds : Z) : M Z :=
  fun s => (Done (alarm_timer s), with_alarm_timer (to_unsigned seconds) s,
            [(EvAlarm seconds, s)]).

Definition sigaltstack (ss : stack_t) : M Z :=
  fun s =>
    if sigaltstack_err E =? 0
    then (Done 0, with_altstack (Some ss) s, [(EvSigaltstack ss, s)])
    else (Done (sigaltstack_err E), s, [(EvSigaltstack ss, s)]).

Definition PyMem_Malloc (size : Z) : M (option Z) :=
  call (EvMalloc size) ;; ret (PyMem_Malloc_result E).

Definition PyMem_Free (ptr : Z) : M unit := call (EvFree ptr).

Definition Py_AtExit (f : exit_func) : M unit :=
  call (EvAtExit f) ;; modify (fun s => with_exitfuncs (exitfuncs s ++ [f]) s).

Definition PyErr_SetString (e : exception) (msg : string) : M unit :=
  modify (with_py_err (Some (e, msg))).

Definition PyBool_FromLong (v : Z) : PyObject :=
  if v =? 0 then Py_False else Py_True.

(** ** handler.c *)

(** [static int fault_signals[]] *)
Definition fault_signals : list Z :=
  option_list (SIGBUS P) ++ option_list (SIGILL P) ++ [SIGFPE P; SIGSEGV P].

Definition NFAULT_SIGNALS : nat := length fault_signals.

(** [&fault_handlers[i]] read, and a store through it. *)
Definition handler_at (i : nat) : M fault_handler_t :=
  fun s =>
    match fault_handlers s !! i with
    | Some h => (Done h, s, [])
    | None => (Crash, s, [])
    end.

Definition handler_set (i : nat) (f : fault_handler_t -> fault_handler_t) : M unit :=
  h <- handler_at i ;;
  modify (fun s => with_fault_handlers (<[i := f h]> (fault_handlers s)) s).

(** The search loop of [faulthandler_fatal_error]: [handler] is the index of
    the entry the pointer refers to, None while it is not yet assigned. *)
Fixpoint search_handler (tbl : list fault_handler_t) (sig : Z)
    (i n : nat) (handler : option nat) : option nat :=
  match n with
  | O => handler
  | S n' =>
      match tbl !! i with
      | Some h => if signum h =? sig then Some i
                  else search_handler tbl sig (S i) n' (Some i)
      | None => None
      end
  end.

Definition find_handler (sig : Z) : M nat :=
  fun s =>
    match search_handler (fault_handlers s) sig 0 NFAULT_SIGNALS None with
    | Some i => (Done i, s, [])
    | None => (Crash, s, [])
    end.

Definition faulthandler_fatal_error (sig : Z) : M unit :=
  fd <- get fatal_error_fd ;;
  (* restore the previous handler *)
  i <- find_handler sig ;;
  handler <- handler_at i ;;
  sigaction (signum handler) (previous handler) ;;
  handler_set i (with_enabled 0) ;;
  PUTS fd (Some "Fatal Python error: "%string) ;;
  handler <- handler_at i ;;
  PUTS fd (name handler) ;;
  PUTS fd (Some (NL +:+ NL)) ;;
  faulthandler_dump_backtrace fd.

Definition faulthandler_cancel_dumpbacktrace_later : M unit :=
  alarm 0 ;; ret tt.

Definition faulthandler_alarm (sig : Z) : M unit :=
  all <- get (fun s => all_threads (fault_alarm s)) ;;
  ok <- (if negb (all =? 0) then
           match PyGILState_GetThisThreadState E with
           | None =>
               (* unable to get the current thread, do nothing *)
               ret None
           | Some current_thread =>
               fd <- get (fun s => fd (fault_alarm s)) ;;
               errmsg <- faulthandler_dump_backtrace_threads fd current_thread ;;
               ret (Some (match errmsg with None => 1 | Some _ => 0 end))
           end
         else
           fd <- get (fun s => fd (fault_alarm s)) ;;
           faulthandler_dump_backtrace fd ;;
           ret (Some 1)) ;;
  match ok with
  | None => ret tt      (* the return above *)
  | Some ok =>
      fa <- get fault_alarm ;;
      if negb (ok =? 0) && negb (repeat fa =? 0)
      then alarm (delay fa) ;; ret tt
      else faulthandler_cancel_dumpbacktrace_later
  end.

Definition with_ss_sp (v : option Z) (st : stack_t) : stack_t :=
  {| ss_sp := v; ss_flags := ss_flags st; ss_size := ss_size st |}.
Definition with_ss_flags (v : Z) (st : stack_t) : stack_t :=
  {| ss_sp := ss_sp st; ss_flags := v; ss_size := ss_size st |}.
Definition with_ss_size (v : Z) (st : stack_t) : stack_t :=
  {| ss_sp := ss_sp st; ss_flags := ss_flags st; ss_size := v |}.

Definition faulthandler_init : M unit :=
  modify (with_faulthandler_enabled 0) ;;
  modify (fun s => with_stack (with_ss_sp None (stack s)) s).

Definition faulthandler_unload : M unit :=
  faulthandler_cancel_dumpbacktrace_later ;;
  sp <- get (fun s => ss_sp (stack s)) ;;
  match sp with
  | Some ptr =>
      PyMem_Free ptr ;;
      modify (fun s => with_stack (with_ss_sp None (stack s)) s)
  | None => ret tt
  end.

Definition get_stderr : M Z :=
  call EvFflushStderr ;;
  ret (stderr_fileno E).

(** [fault_signals[i]] *)
Definition fault_signal_at (i : nat) : M Z :=
  match fault_signals !! i with
  | Some sig => ret sig
  | None => crash
  end.

(** [sig == SIGBUS] under [#ifdef SIGBUS]: never true without the macro. *)
Definition is_defined_signal (macro : option Z) (sig : Z) : bool :=
  match macro with
  | Some v => sig =? v
  | None => false
  end.

(** The if/else-if chain of the first loop of [faulthandler_enable]. *)
Definition handler_name (sig : Z) : string :=
  if sig =? SIGFPE P then "Floating point exception"%string
  else if is_defined_signal (SIGBUS P) sig then "Bus error"%string
  else if is_defined_signal (SIGILL P) sig then "Illegal instruction"%string
  else "Segmentation fault"%string.

(** First loop of [faulthandler_enable], body (lines 183-197). *)
Definition enable_fill_entry (i : nat) : M unit :=
  sig <- fault_signal_at i ;;
  handler_set i (with_signum sig) ;;
  handler_set i (with_enabled 0) ;;
  handler <- handler_at i ;;
  handler_set i (with_name (Some (handler_name (signum handler)))).

(** Second loop of [faulthandler_enable], body (lines 201-213);
    [&handler->previous] is the [oldact] of the call. *)
Definition enable_install_entry (i : nat) : M unit :=
  handler <- handler_at i ;;
  let action := {| sa_handler := fn_faulthandler_fatal_error;
                   sa_mask := [];
                   sa_flags := SA_ONSTACK P |} in
  r <- sigaction (signum handler) action ;;
  let err := fst r in
  match snd r with
  | Some old => handler_set i (with_previous old)
  | None => ret tt
  end ;;
  if err =? 0 then handler_set i (with_enabled 1) else ret tt.

(** [faulthandler_enable] from the alternate stack on (lines 169-215). *)
Definition enable_install : M (option PyObject) :=
  (* Try to allocate an alternate stack; if it fails, ignore the error. *)
  modify (fun s => with_stack (with_ss_flags (SS_ONSTACK P) (stack s)) s) ;;
  modify (fun s => with_stack (with_ss_size (SIGSTKSZ P) (stack s)) s) ;;
  size <- get (fun s => ss_size (stack s)) ;;
  sp <- PyMem_Malloc size ;;
  modify (fun s => with_stack (with_ss_sp sp (stack s)) s) ;;
  sp <- get (fun s => ss_sp (stack s)) ;;
  match sp with
  | Some _ => st <- get stack ;; sigaltstack st ;; ret tt
  | None => ret tt
  end ;;
  Py_AtExit fn_faulthandler_unload ;;
  for_loop 0 NFAULT_SIGNALS enable_fill_entry ;;
  for_loop 0 NFAULT_SIGNALS enable_install_entry ;;
  ret (Some Py_None).

Definition faulthandler_enable : M (option PyObject) :=
  en <- get faulthandler_enabled ;;
  if negb (en =? 0) then ret (Some Py_None)
  else
    fd <- get_stderr ;;
    modify (with_fatal_error_fd fd) ;;
    fd <- get fatal_error_fd ;;
    if fd =? -1 then
      PyErr_SetString PyExc_RuntimeError
        "unable to get the file descriptor of the standard error" ;;
      ret None
    else
      modify (with_faulthandler_enabled 1) ;;
      enable_install.

(** Loop of [faulthandler_disable], body (lines 229-237). *)
Definition disable_restore_entry (i : nat) : M unit :=
  handler <- handler_at i ;;
  if enabled handler =? 0 then ret tt      (* continue *)
  else
    sigaction (signum handler) (previous handler) ;;
    handler_set i (with_enabled 0).

Definition faulthandler_disable : M (option PyObject) :=
  en <- get faulthandler_enabled ;;
  (if en =? 0 then ret tt        (* goto exit *)
   else
     modify (with_faulthandler_enabled 0) ;;
     for_loop 0 NFAULT_SIGNALS disable_restore_entry) ;;
  ret (Some Py_None).

Definition faulthandler_isenabled : M (option PyObject) :=
  en <- get faulthandler_enabled ;;
  ret (Some (PyBool_FromLong en)).

(** The arguments are the three ints as PyArg_ParseTupleAndKeywords stores
    them ([repeat] and [all_threads] are 0 when not passed); a failed parse
    returns NULL before anything below runs. *)
Definition faulthandler_dumpbacktrace_later (delay repeat all_threads : Z)
  : M (option PyObject) :=
  if delay <=? 0 then
    PyErr_SetString PyExc_ValueError "delay must be greater than 0" ;;
    ret None
  else
    fd <- get_stderr ;;
    if fd =? -1 then
      PyErr_SetString PyExc_RuntimeError "unable to get stderr file descriptor" ;;
      ret None
    else
      previous <- signal (SIGALRM P) fn_faulthandler_alarm ;;
      match previous with
      | SIG_ERR =>
          PyErr_SetString PyExc_RuntimeError "unable to set SIGALRM handler" ;;
          ret None
      | _ =>
          modify (fun s => with_fault_alarm (with_fd fd (fault_alarm s)) s) ;;
          modify (fun s => with_fault_alarm (with_delay delay (fault_alarm s)) s) ;;
          modify (fun s => with_fault_alarm (with_repeat repeat (fault_alarm s)) s) ;;
          modify (fun s => with_fault_alarm (with_all_threads all_threads (fault_alarm s)) s) ;;
          alarm delay ;;
          ret (Some Py_None)
      end.

Definition faulthandler_cancel_dumpbacktrace_later_py : M (option PyObject) :=
  faulthandler_cancel_dumpbacktrace_later ;;
  ret (Some Py_None).

End Model.

(** ** Concrete platforms, environments and states *)

(** Linux on x86-64 with glibc, whose [signal] has the BSD semantics:
    SA_RESTART (0x10000000), the signal added to the mask. *)
Definition linux : platform :=
  {| SIGBUS := Some 7; SIGILL := Some 4; SIGFPE := 8; SIGSEGV := 11;
     SIGALRM := 14; SIGSTKSZ := 8192; SS_ONSTACK := 1;
     SA_ONSTACK := 134217728;
     signal_flags := 268435456; signal_mask := fun sig => [sig] |}.

(** A platform whose <signal.h> has neither SIGBUS nor SIGILL. *)
Definition bare_platform : platform :=
  {| SIGBUS := None; SIGILL := None; SIGFPE := 8; SIGSEGV := 11;
     SIGALRM := 14; SIGSTKSZ := 8192; SS_ONSTACK := 1;
     SA_ONSTACK := 134217728;
     signal_flags := 268435456; signal_mask := fun sig => [sig] |}.

Definition env_ok : environ :=
  {| stderr_fileno := 2; PyMem_Malloc_result := Some 4096;
     sigaction_err := fun _ => 0; sigaltstack_err := 0;
     PyGILState_GetThisThreadState := Some 1;
     dump_backtrace_threads_errmsg := None |}.

(** fileno(stderr) fails. *)
Definition env_no_stderr : environ :=
  {| stderr_fileno := -1; PyMem_Malloc_result := Some 4096;
     sigaction_err := fun _ => 0; sigaltstack_err := 0;
     PyGILState_GetThisThreadState := Some 1;
     dump_backtrace_threads_errmsg := None |}.

(** No memory for the alternate stack and every sigaction call refused. *)
Definition env_all_fail : environ :=
  {| stderr_fileno := 2; PyMem_Malloc_result := None;
     sigaction_err := fun _ => -1; sigaltstack_err := -1;
     PyGILState_GetThisThreadState := Some 1;
     dump_backtrace_threads_errmsg := None |}.

(** The calling thread has no thread state. *)
Definition env_no_tstate : environ :=
  {| stderr_fileno := 2; PyMem_Malloc_result := Some 4096;
     sigaction_err := fun _ => 0; sigaltstack_err := 0;
     PyGILState_GetThisThreadState := None;
     dump_backtrace_threads_errmsg := None |}.

(** The dump of all threads fails. *)
Definition env_dump_fails : environ :=
  {| stderr_fileno := 2; PyMem_Malloc_result := Some 4096;
     sigaction_err := fun _ => 0; sigaltstack_err := 0;
     PyGILState_GetThisThreadState := Some 1;
     dump_backtrace_threads_errmsg := Some "unable to get the thread head state"%string |}.

Definition default_action : sigaction_t :=
  {| sa_handler := SIG_DFL; sa_mask := []; sa_flags := 0 |}.

(** The process as the loader leaves it: statics zeroed but for
    [fatal_error_fd = 2], default dispositions, no timer. *)
Definition static_proc (P : platform) : proc :=
  {| faulthandler_enabled := 0;
     fatal_error_fd := 2;
     stack := {| ss_sp := None; ss_flags := 0; ss_size := 0 |};
     fault_handlers :=
       replicate (NFAULT_SIGNALS P)
         {| signum := 0; enabled := 0; name := None; previous := default_action |};
     fault_alarm := {| fd := 0; delay := 0; repeat := 0; all_threads := 0 |};
     py_err := None;
     sig_disp := fun _ => default_action;
     alarm_timer := 0;
     altstack := None;
     exitfuncs := [] |}.

(** The process after a successful [enable()] on Linux. *)
Definition enabled_proc : proc :=
  state_of (faulthandler_enable linux env_ok (static_proc linux)).

(** A process in which SIGSEGV and SIGFPE already have handlers of the
    application, installed before faulthandler is used. *)
Definition app_segv_action : sigaction_t :=
  {| sa_handler := fn_other 4660; sa_mask := [14]; sa_flags := 4 |}.

Definition app_proc : proc :=
  with_sig_disp
    (upd (upd (fun _ => default_action) 11 app_segv_action)
         8 {| sa_handler := SIG_IGN; sa_mask := []; sa_flags := 0 |})
    (static_proc linux).

Definition app_enabled_proc : proc :=
  state_of (faulthandler_enable linux env_ok app_proc).

(** ** Classifying calls *)

(** Diagnostic output: a raw write or a call of the backtrace provider. *)
Definition is_diagnostic (e : event) : bool :=
  match e with
  | EvWrite _ _ | EvDumpBacktrace _ | EvDumpBacktraceThreads _ _ => true
  | _ => false
  end.

(** The installation work of enable: the stack allocation, the stack
    registration and the per-signal handler installation. *)
Definition is_installation (e : event) : bool :=
  match e with
  | EvMalloc _ | EvSigaltstack _ | EvSigaction _ _ => true
  | _ => false
  end.

(** The arguments of the [alarm] calls of a run, in order. *)
Fixpoint alarm_calls (es : list event) : list Z :=
  match es with
  | [] => []
  | EvAlarm n :: es' => n :: alarm_calls es'
  | _ :: es' => alarm_calls es'
  end.

(** The bytes written to descriptor [d], in order. *)
Fixpoint written (d : Z) (es : list event) : string :=
  match es with
  | [] => EmptyString
  | EvWrite d' text :: es' =>
      if d' =? d then text +:+ written d es' else written d es'
  | _ :: es' => written d es'
  end.

(** ** What the loops compute *)

(** One restoring call of disable on the dispositions [d]. *)
Definition restore_entry (E : environ) (d : Z -> sigaction_t) (h : fault_handler_t)
  : Z -> sigaction_t :=
  if enabled h =? 0 then d
  else if sigaction_err E (signum h) =? 0 then upd d (signum h) (previous h)
  else d.

(** The dispositions after the restoring calls for the entries [hs], first to last. *)
Definition restore_all (E : environ) (hs : list fault_handler_t) (d : Z -> sigaction_t)
  : Z -> sigaction_t :=
  fold_left (restore_entry E) hs d.

(** The restoring calls themselves: one for each entry whose flag is set. *)
Definition restore_calls (hs : list fault_handler_t) : list event :=
  map (fun h => EvSigaction (signum h) (previous h))
      (List.filter (fun h => negb (enabled h =? 0)) hs).

(** The table as the first loop of enable fills it: entry by entry the
    signal number of [fault_signals] and the name chosen for it. *)
Definition populated (P : platform) (tbl : list fault_handler_t) : Prop :=
  Forall2 (fun sig h => signum h = sig /\ name h = Some (handler_name P sig))
          (fault_signals P) tbl.

(** What the first loop of enable makes of an entry. *)
Definition fill_entry (P : platform) (sig : Z) (h : fault_handler_t) : fault_handler_t :=
  {| signum := sig; enabled := 0; name := Some (handler_name P sig);
     previous := previous h |}.

(** The [action] the second loop of enable installs. *)
Definition fatal_action (P : platform) : sigaction_t :=
  {| sa_handler := fn_faulthandler_fatal_error; sa_mask := [];
     sa_flags := SA_ONSTACK P |}.

(** The second loop of enable on the entries [hs], first to last, from the
    dispositions [d]: the entries and the dispositions it leaves. *)
Fixpoint install_all (P : platform) (E : environ) (hs : list fault_handler_t)
    (d : Z -> sigaction_t) : list fault_handler_t * (Z -> sigaction_t) :=
  match hs with
  | [] => ([], d)
  | h :: hs' =>
      if sigaction_err E (signum h) =? 0 then
        let r := install_all P E hs' (upd d (signum h) (fatal_action P)) in
        (with_enabled 1 (with_previous (d (signum h)) h) :: fst r, snd r)
      else
        let r := install_all P E hs' d in
        (h :: fst r, snd r)
  end.

(** The signal stack in force after the stack block of enable. *)
Definition altstack_after (P : platform) (E : environ) (old : option stack_t)
  : option stack_t :=
  match PyMem_Malloc_result E with
  | Some ptr =>
      if sigaltstack_err E =? 0
      then Some {| ss_sp := Some ptr; ss_flags := SS_ONSTACK P; ss_size := SIGSTKSZ P |}
      else old
  | None => old
  end.

(** The process after lines 169-215 of enable run from [s]. *)
Definition after_install (P : platform) (E : environ) (s : proc) : proc :=
  let filled := zip_with (fill_entry P) (fault_signals P) (fault_handlers s) in
  {| faulthandler_enabled := faulthandler_enabled s;
     fatal_error_fd := fatal_error_fd s;
     stack := {| ss_sp := PyMem_Malloc_result E; ss_flags := SS_ONSTACK P;
                 ss_size := SIGSTKSZ P |};
     fault_handlers := fst (install_all P E filled (sig_disp s));
     fault_alarm := fault_alarm s;
     py_err := py_err s;
     sig_disp := snd (install_all P E filled (sig_disp s));
     alarm_timer := alarm_timer s;
     altstack := altstack_after P E (altstack s);
     exitfuncs := exitfuncs s ++ [fn_faulthandler_unload] |}.

(** The calls of lines 169-215 of enable, in order. *)
Definition enable_install_calls (P : platform) (E : environ) : list event :=
  EvMalloc (SIGSTKSZ P)
  :: match PyMem_Malloc_result E with
     | Some ptr =>
         [EvSigaltstack {| ss_sp := Some ptr; ss_flags := SS_ONSTACK P;
                           ss_size := SIGSTKSZ P |}]
     | None => []
     end
  ++ EvAtExit fn_faulthandler_unload
  :: map (fun sig => EvSigaction sig (fatal_action P)) (fault_signals P).

(** The local [ok] of [faulthandler_alarm]: a dump was made and did not
    fail. *)
Definition dump_succeeded (E : environ) (s : proc) : bool :=
  if all_threads (fault_alarm s) =? 0 then true
  else match PyGILState_GetThisThreadState E with
       | None => false
       | Some _ =>
           match dump_backtrace_threads_errmsg E with
           | None => true
           | Some _ => false
           end
       end.

(** A process with the watchdog armed for 5 seconds, all threads, no
    repeat, the timer still pending. *)
Definition armed_proc : proc :=
  state_of (faulthandler_dumpbacktrace_later linux env_ok 5 0 1 (static_proc linux)).

(** [armed_proc] at the moment its timer has run out. *)
Definition fired_proc : proc := with_alarm_timer 0 armed_proc.

(** The same with repeat. *)
Definition armed_repeat_proc : proc :=
  state_of (faulthandler_dumpbacktrace_later linux env_ok 5 1 1 (static_proc linux)).

(** ** The kernel's side: delivering a signal

    What the kernel does with a signal whose disposition is one of the two
    handlers of handler.c: it calls the handler.  Any other disposition (the
    default action, ignoring, a handler of the application) is outside
    handler.c and makes no step here. *)
Definition deliver (P : platform) (E : environ) (sig : Z) : M unit :=
  h <- get (fun s => sa_handler (sig_disp s sig)) ;;
  match h with
  | fn_faulthandler_fatal_error => faulthandler_fatal_error P E sig
  | fn_faulthandler_alarm => faulthandler_alarm E sig
  | _ => ret tt
  end.

(** The timer of [alarm] running out: nothing when no timer is pending;
    otherwise the timer is spent and SIGALRM is delivered. *)
Definition timer_expires (P : platform) (E : environ) : M unit :=
  t <- get alarm_timer ;;
  if t =? 0 then ret tt
  else modify (with_alarm_timer 0) ;; deliver P E (SIGALRM P).

(** [n] occasions for the timer to run out, one after the other. *)
Fixpoint timer_expiries (P : platform) (E : environ) (n : nat) : M unit :=
  match n with
  | O => ret tt
  | S n' => timer_expires P E ;; timer_expiries P E n'
  end.

(** The [EvDumpBacktrace] calls of a run. *)
Fixpoint dumps (es : list event) : list Z :=
  match es with
  | [] => []
  | EvDumpBacktrace d :: es' => d :: dumps es'
  | _ :: es' => dumps es'
  end.

(** The [EvFree] calls of a run. *)
Fixpoint frees (es : list event) : list Z :=
  match es with
  | [] => []
  | EvFree ptr :: es' => ptr :: frees es'
  | _ :: es' => frees es'
  end.

(** The disposition [signal(sig, h)] installs. *)
Definition signal_action (P : platform) (sig : Z) (h : sighandler) : sigaction_t :=
  {| sa_handler := h; sa_mask := signal_mask P sig; sa_flags := signal_flags P |}.

(** [m] run from [s] keeps the table filled and does not end in undefined
    behaviour. *)
Definition runs_well {A} (P : platform) (m : M A) (s : proc) : Prop :=
  populated P (fault_handlers (state_of (m s))) /\ result_of (m s) <> Crash.

(** The fault signals before SIGSEGV in [fault_signals]. *)
Definition other_fault_signals (P : platform) : list Z :=
  option_list (SIGBUS P) ++ option_list (SIGILL P) ++ [SIGFPE P].

(** ** More concrete environments and states *)

(** The kernel refuses [sigaction] for signal 7 (SIGBUS on Linux) only. *)
Definition env_refuses_bus : environ :=
  {| stderr_fileno := 2; PyMem_Malloc_result := Some 4096;
     sigaction_err := fun x => if x =? 7 then -1 else 0; sigaltstack_err := 0;
     PyGILState_GetThisThreadState := Some 1;
     dump_backtrace_threads_errmsg := None |}.

(** A later moment of the same process: the allocator gives another block. *)
Definition env_ok_later : environ :=
  {| stderr_fileno := 2; PyMem_Malloc_result := Some 16384;
     sigaction_err := fun _ => 0; sigaltstack_err := 0;
     PyGILState_GetThisThreadState := Some 1;
     dump_backtrace_threads_errmsg := None |}.

(** A platform on which SIGSEGV and SIGBUS are one signal. *)
Definition aliased_platform : platform :=
  {| SIGBUS := Some 11; SIGILL := Some 4; SIGFPE := 8; SIGSEGV := 11;
     SIGALRM := 14; SIGSTKSZ := 8192; SS_ONSTACK := 1;
     SA_ONSTACK := 134217728;
     signal_flags := 268435456; signal_mask := fun sig => [sig] |}.

(** The watchdog armed for 2 seconds, current thread only, no repeat. *)
Definition armed_once_proc : proc :=
  state_of (faulthandler_dumpbacktrace_later linux env_ok 2 0 0 (static_proc linux)).

(** The watchdog armed for 1 second, current thread only, repeating. *)
Definition armed_every_second_proc : proc :=
  state_of (faulthandler_dumpbacktrace_later linux env_ok 1 1 0 (static_proc linux)).

(** ** Invariants of a run

    [preserves I m]: from a state in [I], [m] ends (or crashes) in a state in
    [I], and every call it makes is issued in a state in [I]. *)
Definition preserves {A} (I : proc -> Prop) (m : M A) : Prop :=
  forall s, I s ->
    I (state_of (m s)) /\ Forall (fun c => I (snd c)) (trace_of (m s)).

Lemma preserves_ret {A} (I : proc -> Prop) (a : A) : preserves I (ret a).
Proof. intros s Hs. split; [exact Hs | constructor]. Qed.

Lemma preserves_crash {A} (I : proc -> Prop) : preserves I (@crash A).
Proof. intros s Hs. split; [exact Hs | constructor]. Qed.

Lemma preserves_get {A} (I : proc -> Prop) (f : proc -> A) : preserves I (get f).
Proof. intros s Hs. split; [exact Hs | constructor]. Qed.

Lemma preserves_call (I : proc -> Prop) (e : event) : preserves I (call e).
Proof.
  intros s Hs. split; [exact Hs |].
  constructor; [exact Hs | constructor].
Qed.

Lemma preserves_modify (I : proc -> Prop) (f : proc -> proc) :
  (forall s, I s -> I (f s)) -> preserves I (modify f).
Proof. intros Hf s Hs. split; [apply Hf, Hs | constructor]. Qed.

Lemma preserves_bind {A B} (I : proc -> Prop) (m : M A) (k : A -> M B) :
  preserves I m -> (forall a, preserves I (k a)) -> preserves I (bind m k).
Proof.
  intros Hm Hk s Hs. unfold bind.
  destruct (Hm s Hs) as [H1 H2].
  destruct (m s) as [[[a|] s1] t1] eqn:Em; cbn in H1, H2.
  - destruct (Hk a s1 H1) as [H3 H4].
    destruct (k a s1) as [[r s2] t2]; cbn in *.
    split; [exact H3 | apply Forall_app; split; assumption].
  - split; assumption.
Qed.

Lemma preserves_for_loop (I : proc -> Prop) (body : nat -> M unit) n :
  (forall i, preserves I (body i)) -> forall i, preserves I (for_loop i n body).
Proof.
  intros Hb. induction n as [|n IH]; intros i; cbn [for_loop].
  - apply preserves_ret.
  - apply preserves_bind; [apply Hb | intros _; apply IH].
Qed.

Lemma preserves_if {A} (I : proc -> Prop) (b : bool) (m1 m2 : M A) :
  preserves I m1 -> preserves I m2 -> preserves I (if b then m1 else m2).
Proof. destruct b; auto. Qed.

Section Frames.

Variable P : platform.
Variable E : environ.
Variable I : proc -> Prop.

Lemma preserves_PUTS d str : preserves I (PUTS d str).
Proof. destruct str; [apply preserves_call | apply preserves_crash]. Qed.

Lemma preserves_dump_backtrace d : preserves I (faulthandler_dump_backtrace d).
Proof. apply preserves_call. Qed.

Lemma preserves_handler_at i : preserves I (handler_at i).
Proof.
  intros s Hs. unfold handler_at.
  destruct (fault_handlers s !! i); (split; [exact Hs | constructor]).
Qed.

Lemma preserves_handler_set i f :
  (forall s h, I s -> fault_handlers s !! i = Some h ->
     I (with_fault_handlers (<[i := f h]> (fault_handlers s)) s)) ->
  preserves I (handler_set i f).
Proof.
  intros Hf s Hs. unfold handler_set, bind, handler_at, modify.
  destruct (fault_handlers s !! i) as [h|] eqn:Eh; cbn.
  - split; [apply Hf; assumption | constructor].
  - split; [exact Hs | constructor].
Qed.

Lemma preserves_sigaction sig act :
  (forall s, I s -> sigaction_err E sig = 0 ->
     I (with_sig_disp (upd (sig_disp s) sig act) s)) ->
  preserves I (sigaction E sig act).
Proof.
  intros Hf s Hs. unfold sigaction.
  destruct (sigaction_err E sig =? 0) eqn:Ee; cbn.
  - split; [apply Hf; [exact Hs | lia] | constructor; [exact Hs | constructor]].
  - split; [exact Hs | constructor; [exact Hs | constructor]].
Qed.

Lemma preserves_sigaltstack ss :
  (forall s, I s -> I (with_altstack (Some ss) s)) ->
  preserves I (sigaltstack E ss).
Proof.
  intros Hf s Hs. unfold sigaltstack.
  destruct (sigaltstack_err E =? 0); cbn.
  - split; [apply Hf, Hs | constructor; [exact Hs | constructor]].
  - split; [exact Hs | constructor; [exact Hs | constructor]].
Qed.

Lemma preserves_PyMem_Malloc size : preserves I (PyMem_Malloc E size).
Proof.
  apply preserves_bind; [apply preserves_call | intros; apply preserves_ret].
Qed.

Lemma preserves_Py_AtExit f :
  (forall s, I s -> I (with_exitfuncs (exitfuncs s ++ [f]) s)) ->
  preserves I (Py_AtExit f).
Proof.
  intros Hf. apply preserves_bind; [apply preserves_call |].
  intros _. apply preserves_modify. exact Hf.
Qed.

Lemma preserves_fault_signal_at i : preserves I (fault_signal_at P i).
Proof.
  unfold fault_signal_at.
  destruct (fault_signals P !! i); [apply preserves_ret | apply preserves_crash].
Qed.

End Frames.

(** Reads fields through the stores to them. *)
Ltac proc_simpl :=
  cbn [faulthandler_enabled fatal_error_fd stack fault_handlers fault_alarm
       py_err sig_disp alarm_timer altstack exitfuncs
       with_faulthandler_enabled with_fatal_error_fd with_stack
       with_fault_handlers with_fault_alarm with_py_err with_sig_disp
       with_alarm_timer with_altstack with_exitfuncs
       ss_sp ss_flags ss_size with_ss_sp with_ss_flags with_ss_size].

Tactic Notation "proc_simpl" "in" hyp(H) :=
  cbn [faulthandler_enabled fatal_error_fd stack fault_handlers fault_alarm
       py_err sig_disp alarm_timer altstack exitfuncs
       with_faulthandler_enabled with_fatal_error_fd with_stack
       with_fault_handlers with_fault_alarm with_py_err with_sig_disp
       with_alarm_timer with_altstack with_exitfuncs
       ss_sp ss_flags ss_size with_ss_sp with_ss_flags with_ss_size] in H.

(** Closes the cases of the timer handler once its run is known. *)
Ltac alarm_cases :=
  repeat split; intros;
  repeat match goal with
         | H : _ /\ _ |- _ => destruct H
         | H : _ :: _ = _ :: _ |- _ => injection H as H
         end;
  try reflexivity; try discriminate; try contradiction; try lia.

(** Decomposes a [preserves] goal along the structure of the program; what
    is left are the stores, each to be shown to keep the invariant. *)
Ltac frame_step :=
  first
    [ apply preserves_ret
    | apply preserves_crash
    | apply preserves_get
    | apply preserves_call
    | apply preserves_PUTS
    | apply preserves_dump_backtrace
    | apply preserves_handler_at
    | apply preserves_PyMem_Malloc
    | apply preserves_fault_signal_at
    | apply preserves_if
    | apply preserves_bind; [| intros ?]
    | apply preserves_for_loop; intros ?
    | apply preserves_modify; intros ? ?
    | apply preserves_handler_set; intros ? ? ? ?
    | apply preserves_sigaction; intros ? ? ?
    | apply preserves_sigaltstack; intros ? ?
    | apply preserves_Py_AtExit; intros ? ?
    | match goal with
      | |- preserves _ (match ?x with _ => _ end) => destruct x
      end ].

Ltac frame := repeat frame_step.

Section Enable.

Variable P : platform.
Variable E : environ.

(** Nothing of [faulthandler_enable] after line 167 writes
    [faulthandler_enabled]. *)
Lemma enable_install_keeps_enabled v :
  preserves (fun s => faulthandler_enabled s = v) (enable_install P E).
Proof.
  unfold enable_install, enable_fill_entry, enable_install_entry.
  frame; cbn; assumption.
Qed.

(** One iteration of the first loop of enable. *)
Lemma enable_fill_entry_run i s sig h :
  fault_signals P !! i = Some sig ->
  fault_handlers s !! i = Some h ->
  enable_fill_entry P i s
  = (Done tt, with_fault_handlers (<[i := fill_entry P sig h]> (fault_handlers s)) s, []).
Proof.
  intros Hsig Hi.
  assert (Hlt : (i < length (fault_handlers s))%nat)
    by (apply lookup_lt_is_Some; eauto).
  unfold enable_fill_entry, fault_signal_at. rewrite Hsig.
  unfold handler_set, bind, ret, handler_at, modify. rewrite Hi.
  repeat (cbn [fault_handlers with_fault_handlers app];
          first [ rewrite list_insert_insert_eq
                | rewrite list_lookup_insert_eq by exact Hlt ]).
  reflexivity.
Qed.

(** The first loop of enable from entry [length done] on. *)
Lemma enable_fill_loop rest : forall sigs done sdone s,
  fault_handlers s = done ++ rest ->
  fault_signals P = sdone ++ sigs ->
  length sdone = length done ->
  length sigs = length rest ->
  for_loop (length done) (length rest) (enable_fill_entry P) s
  = (Done tt,
     with_fault_handlers (done ++ zip_with (fill_entry P) sigs rest) s, []).
Proof.
  induction rest as [|h rest IH]; intros sigs done sdone s Htbl Hsigs Hl1 Hl2.
  - destruct sigs; [|discriminate]. cbn.
    rewrite app_nil_r in *. destruct s; cbn in *. subst. reflexivity.
  - destruct sigs as [|sig sigs]; [discriminate|].
    assert (Hi : fault_handlers s !! length done = Some h)
      by (rewrite Htbl; apply list_lookup_middle; reflexivity).
    assert (Hs : fault_signals P !! length done = Some sig)
      by (rewrite Hsigs; apply list_lookup_middle; symmetry; exact Hl1).
    cbn [for_loop length]. unfold bind.
    rewrite (enable_fill_entry_run _ _ _ _ Hs Hi).
    replace (S (length done)) with (length (done ++ [fill_entry P sig h]))
      by (rewrite length_app; cbn; lia).
    rewrite (IH sigs (done ++ [fill_entry P sig h]) (sdone ++ [sig])).
    + cbn. rewrite <- app_assoc. reflexivity.
    + cbn. rewrite Htbl.
      replace (length done) with (length done + 0)%nat at 1 by lia.
      rewrite insert_app_r, <- app_assoc. reflexivity.
    + rewrite <- app_assoc. exact Hsigs.
    + rewrite !length_app. cbn. lia.
    + cbn in Hl2. lia.
Qed.

(** One iteration of the second loop of enable. *)
Lemma enable_install_entry_run i s h :
  fault_handlers s !! i = Some h ->
  enable_install_entry P E i s
  = (Done tt,
     (if sigaction_err E (signum h) =? 0
      then with_fault_handlers
             (<[i := with_enabled 1 (with_previous (sig_disp s (signum h)) h)]>
                (fault_handlers s))
             (with_sig_disp (upd (sig_disp s) (signum h) (fatal_action P)) s)
      else s),
     [(EvSigaction (signum h) (fatal_action P), s)]).
Proof.
  intros Hi.
  assert (Hlt : (i < length (fault_handlers s))%nat)
    by (apply lookup_lt_is_Some; eauto).
  unfold enable_install_entry, bind at 1, handler_at at 1. rewrite Hi.
  unfold bind at 1, sigaction. fold (fatal_action P).
  destruct (sigaction_err E (signum h) =? 0) eqn:Eerr.
  - cbn [fst snd]. unfold handler_set, bind, handler_at, modify, ret.
    cbn [fault_handlers with_sig_disp with_fault_handlers]. rewrite Hi.
    cbn [fault_handlers with_sig_disp with_fault_handlers app Z.eqb].
    rewrite list_lookup_insert_eq by exact Hlt.
    cbn [fault_handlers with_sig_disp with_fault_handlers app Z.eqb].
    rewrite list_insert_insert_eq.
    reflexivity.
  - cbn [fst snd]. unfold bind, ret. rewrite Eerr. reflexivity.
Qed.

(** The second loop of enable from entry [length done] on. *)
Lemma enable_install_loop rest : forall done s,
  fault_handlers s = done ++ rest ->
  exists t,
    for_loop (length done) (length rest) (enable_install_entry P E) s
    = (Done tt,
       with_sig_disp (snd (install_all P E rest (sig_disp s)))
         (with_fault_handlers (done ++ fst (install_all P E rest (sig_disp s))) s),
       t)
    /\ map fst t = map (fun h => EvSigaction (signum h) (fatal_action P)) rest.
Proof.
  induction rest as [|h rest IH]; intros done s Htbl.
  - exists []. split; [|reflexivity].
    rewrite app_nil_r in *. destruct s; cbn in *. subst. reflexivity.
  - assert (Hi : fault_handlers s !! length done = Some h)
      by (rewrite Htbl; apply list_lookup_middle; reflexivity).
    cbn [for_loop length]. unfold bind.
    rewrite (enable_install_entry_run _ _ _ Hi).
    cbn [install_all].
    destruct (sigaction_err E (signum h) =? 0) eqn:Eerr.
    + match goal with
      | |- context [for_loop _ _ _ ?s1] =>
          destruct (IH (done ++ [with_enabled 1 (with_previous (sig_disp s (signum h)) h)])
                      s1) as (t & Hrun & Hev)
      end.
      { cbn. rewrite Htbl.
        replace (length done) with (length done + 0)%nat at 1 by lia.
        rewrite insert_app_r, <- app_assoc. reflexivity. }
      rewrite length_app in Hrun. cbn [length] in Hrun.
      replace (length done + 1)%nat with (S (length done)) in Hrun by lia.
      rewrite Hrun. eexists. split.
      * cbn. rewrite <- app_assoc. reflexivity.
      * cbn. rewrite Hev. reflexivity.
    + destruct (IH (done ++ [h]) s) as (t & Hrun & Hev).
      { rewrite <- app_assoc. exact Htbl. }
      rewrite length_app in Hrun. cbn [length] in Hrun.
      replace (length done + 1)%nat with (S (length done)) in Hrun by lia.
      rewrite Hrun. eexists. split.
      * cbn. rewrite <- app_assoc. reflexivity.
      * cbn. rewrite Hev. reflexivity.
Qed.

Lemma enable_fill_all s :
  length (fault_handlers s) = NFAULT_SIGNALS P ->
  for_loop 0 (NFAULT_SIGNALS P) (enable_fill_entry P) s
  = (Done tt,
     with_fault_handlers
       (zip_with (fill_entry P) (fault_signals P) (fault_handlers s)) s, []).
Proof.
  intros Hlen. rewrite <- Hlen.
  apply (enable_fill_loop (fault_handlers s) (fault_signals P) [] [] s);
    [reflexivity | reflexivity | reflexivity | symmetry; exact Hlen].
Qed.

Lemma enable_install_all s :
  length (fault_handlers s) = NFAULT_SIGNALS P ->
  exists t,
    for_loop 0 (NFAULT_SIGNALS P) (enable_install_entry P E) s
    = (Done tt,
       with_sig_disp (snd (install_all P E (fault_handlers s) (sig_disp s)))
         (with_fault_handlers (fst (install_all P E (fault_handlers s) (sig_disp s))) s),
       t)
    /\ map fst t
       = map (fun h => EvSigaction (signum h) (fatal_action P)) (fault_handlers s).
Proof.
  intros Hlen. rewrite <- Hlen.
  exact (enable_install_loop (fault_handlers s) [] s eq_refl).
Qed.

Lemma length_filled s :
  length (fault_handlers s) = NFAULT_SIGNALS P ->
  length (zip_with (fill_entry P) (fault_signals P) (fault_handlers s))
  = NFAULT_SIGNALS P.
Proof.
  intros Hlen. rewrite length_zip_with, Hlen. unfold NFAULT_SIGNALS. lia.
Qed.

Lemma filled_calls s :
  length (fault_handlers s) = NFAULT_SIGNALS P ->
  map (fun h => EvSigaction (signum h) (fatal_action P))
      (zip_with (fill_entry P) (fault_signals P) (fault_handlers s))
  = map (fun sig => EvSigaction sig (fatal_action P)) (fault_signals P).
Proof.
  intros Hlen. unfold NFAULT_SIGNALS in Hlen.
  revert Hlen. generalize (fault_handlers s) as tbl. generalize (fault_signals P) as sigs.
  induction sigs as [|sig sigs IH]; intros [|h tbl] Hlen; try discriminate;
    [reflexivity|].
  cbn. rewrite IH by (cbn in Hlen; lia). reflexivity.
Qed.

(** Lines 169-215 of enable, on a table of the declared size. *)
Lemma enable_install_run s :
  length (fault_handlers s) = NFAULT_SIGNALS P ->
  exists t,
    enable_install P E s = (Done (Some Py_None), after_install P E s, t)
    /\ map fst t = enable_install_calls P E.
Proof.
  intros Hlen.
  pose proof (length_filled s Hlen) as Hlen'.
  pose proof (filled_calls s Hlen) as Hcalls.
  unfold enable_install, bind, modify, get, PyMem_Malloc, Py_AtExit, bind, call,
    modify, ret, sigaltstack, after_install, altstack_after, enable_install_calls.
  cbn [stack with_stack ss_sp ss_size with_ss_sp with_ss_size with_ss_flags].
  destruct (PyMem_Malloc_result E) as [ptr|];
    [destruct (sigaltstack_err E =? 0)|];
    (rewrite enable_fill_all by exact Hlen;
     match goal with
     | |- context [for_loop _ _ (enable_install_entry P E) ?s1] =>
         destruct (enable_install_all s1) as (t & Hrun & Hev);
         [exact Hlen' | rewrite Hrun]
     end;
     eexists; split; [reflexivity|];
     proc_simpl in Hev; proc_simpl;
     cbn [map fst app]; rewrite ?map_app, Hev, Hcalls;
     cbn [map]; rewrite ?app_nil_r; reflexivity).
Qed.

Lemma enable_already_enabled s :
  faulthandler_enabled s <> 0 ->
  faulthandler_enable P E s = (Done (Some Py_None), s, []).
Proof.
  intros Hen. unfold faulthandler_enable, bind, get, ret.
  replace (faulthandler_enabled s =? 0) with false by lia. reflexivity.
Qed.

Lemma enable_no_stderr s :
  faulthandler_enabled s = 0 ->
  stderr_fileno E = -1 ->
  faulthandler_enable P E s
  = (Done None,
     with_py_err
       (Some (PyExc_RuntimeError,
              "unable to get the file descriptor of the standard error"%string))
       (with_fatal_error_fd (-1) s),
     [(EvFflushStderr, s)]).
Proof.
  intros Hdis Hfd.
  unfold faulthandler_enable, bind, get, get_stderr, bind, call, ret, modify,
    PyErr_SetString, modify.
  rewrite Hdis, Hfd. reflexivity.
Qed.

Lemma enable_proceeds s :
  faulthandler_enabled s = 0 ->
  stderr_fileno E <> -1 ->
  faulthandler_enable P E s
  = (let r := enable_install P E
                (with_faulthandler_enabled 1
                   (with_fatal_error_fd (stderr_fileno E) s)) in
     (result_of r, state_of r, (EvFflushStderr, s) :: trace_of r)).
Proof.
  intros Hdis Hfd.
  unfold faulthandler_enable, bind at 1, get at 1. rewrite Hdis.
  cbn [Z.eqb negb].
  unfold bind at 1, get_stderr, bind at 1, call, ret, bind at 1, modify at 1,
    bind at 1, get at 1.
  cbn [fatal_error_fd with_fatal_error_fd].
  replace (stderr_fileno E =? -1) with false by lia.
  unfold bind, modify.
  destruct (enable_install P E _) as [[r s'] t]. reflexivity.
Qed.

Lemma enable_run s :
  faulthandler_enabled s = 0 ->
  stderr_fileno E <> -1 ->
  length (fault_handlers s) = NFAULT_SIGNALS P ->
  exists t,
    faulthandler_enable P E s
    = (Done (Some Py_None),
       after_install P E
         (with_faulthandler_enabled 1 (with_fatal_error_fd (stderr_fileno E) s)),
       (EvFflushStderr, s) :: t)
    /\ map fst t = enable_install_calls P E.
Proof.
  intros Hdis Hfd Hlen. rewrite (enable_proceeds s Hdis Hfd).
  destruct (enable_install_run
              (with_faulthandler_enabled 1 (with_fatal_error_fd (stderr_fileno E) s))
              Hlen) as (t & Hrun & Hev).
  rewrite Hrun. exists t. split; [reflexivity | exact Hev].
Qed.

(** ** What the second loop leaves *)

Lemma install_all_refused hs : forall d,
  (forall x, sigaction_err E x <> 0) -> install_all P E hs d = (hs, d).
Proof.
  induction hs as [|h hs IH]; intros d Hall; [reflexivity|].
  cbn [install_all]. pose proof (Hall (signum h)).
  replace (sigaction_err E (signum h) =? 0) with false by lia.
  rewrite IH by exact Hall. reflexivity.
Qed.

Lemma install_all_signum hs : forall d,
  map signum (fst (install_all P E hs d)) = map signum hs.
Proof.
  induction hs as [|h hs IH]; intros d; [reflexivity|].
  cbn [install_all]. destruct (sigaction_err E (signum h) =? 0); cbn; rewrite IH;
    reflexivity.
Qed.

Lemma install_all_populated hs : forall sigs d,
  Forall2 (fun sig h => signum h = sig /\ name h = Some (handler_name P sig)) sigs hs ->
  Forall2 (fun sig h => signum h = sig /\ name h = Some (handler_name P sig)) sigs
          (fst (install_all P E hs d)).
Proof.
  induction hs as [|h hs IH]; intros sigs d Hf; inversion Hf; subst.
  - constructor.
  - cbn [install_all]. destruct (sigaction_err E (signum h) =? 0); cbn [fst];
      (constructor; [assumption | apply IH; assumption]).
Qed.

Lemma filled_populated tbl : forall sigs,
  length sigs = length tbl ->
  Forall2 (fun sig h => signum h = sig /\ name h = Some (handler_name P sig)) sigs
          (zip_with (fill_entry P) sigs tbl).
Proof.
  induction tbl as [|h tbl IH]; intros [|sig sigs] Hlen; try discriminate.
  - constructor.
  - cbn. constructor; [split; reflexivity | apply IH; cbn in Hlen; lia].
Qed.

Lemma filled_all_disabled tbl : forall sigs h,
  h ∈ zip_with (fill_entry P) sigs tbl -> enabled h = 0.
Proof.
  induction tbl as [|a tbl IH]; intros [|sig sigs] h Hin; try solve [inversion Hin].
  cbn in Hin. apply elem_of_cons in Hin. destruct Hin as [->|Hin];
    [reflexivity | eapply IH; exact Hin].
Qed.

Lemma filled_signum tbl : forall sigs,
  length sigs = length tbl ->
  map signum (zip_with (fill_entry P) sigs tbl) = sigs.
Proof.
  induction tbl as [|a tbl IH]; intros [|sig sigs] Hlen; try discriminate;
    [reflexivity|].
  cbn. rewrite IH by (cbn in Hlen; lia). reflexivity.
Qed.

(** A successful enable leaves the table populated. *)
Lemma enable_populates s :
  faulthandler_enabled s = 0 ->
  stderr_fileno E <> -1 ->
  length (fault_handlers s) = NFAULT_SIGNALS P ->
  populated P (fault_handlers (state_of (faulthandler_enable P E s))).
Proof.
  intros Hdis Hfd Hlen.
  destruct (enable_run s Hdis Hfd Hlen) as (t & -> & _).
  unfold state_of, populated. cbn.
  apply install_all_populated, filled_populated.
  rewrite Hlen. reflexivity.
Qed.

End Enable.

(** ** disable *)

Lemma with_enabled_same h : enabled h = 0 -> with_enabled 0 h = h.
Proof. destruct h; cbn; intros ->; reflexivity. Qed.

Section Disable.

Variable P : platform.
Variable E : environ.

(** One iteration of the loop of disable at entry [i]. *)
Lemma disable_restore_entry_run i s h :
  fault_handlers s !! i = Some h ->
  disable_restore_entry E i s
  = (Done tt,
     with_sig_disp (restore_entry E (sig_disp s) h)
       (with_fault_handlers (<[i := with_enabled 0 h]> (fault_handlers s)) s),
     if enabled h =? 0 then [] else [(EvSigaction (signum h) (previous h), s)]).
Proof.
  intros Hi.
  unfold disable_restore_entry, bind, handler_at, restore_entry. rewrite Hi.
  destruct (enabled h =? 0) eqn:Een.
  - cbn. rewrite with_enabled_same by lia.
    rewrite list_insert_id by exact Hi.
    destruct s; reflexivity.
  - unfold sigaction, handler_set, bind, handler_at, modify.
    destruct (sigaction_err E (signum h) =? 0); cbn; rewrite Hi; reflexivity.
Qed.

(** The loop of disable from entry [length done] on, the table being
    [done ++ rest]. *)
Lemma disable_loop rest : forall done s,
  fault_handlers s = done ++ rest ->
  exists t,
    for_loop (length done) (length rest) (disable_restore_entry E) s
    = (Done tt,
       with_sig_disp (restore_all E rest (sig_disp s))
         (with_fault_handlers (done ++ map (with_enabled 0) rest) s),
       t)
    /\ map fst t = restore_calls rest.
Proof.
  induction rest as [|h rest IH]; intros done s Htbl.
  - exists []. split; [|reflexivity].
    rewrite app_nil_r in *. destruct s; cbn in *. subst. reflexivity.
  - assert (Hi : fault_handlers s !! length done = Some h)
      by (rewrite Htbl; apply list_lookup_middle; reflexivity).
    cbn [for_loop length]. unfold bind.
    rewrite (disable_restore_entry_run _ _ _ Hi).
    match goal with
    | |- context [for_loop _ _ _ ?s1] =>
        destruct (IH (done ++ [with_enabled 0 h]) s1) as (t & Hrun & Hev)
    end.
    { cbn. rewrite Htbl. rewrite <- app_assoc. cbn [app].
      replace (length done) with (length done + 0)%nat at 1 by lia.
      rewrite insert_app_r. reflexivity. }
    rewrite length_app in Hrun. cbn [length] in Hrun.
    replace (length done + 1)%nat with (S (length done)) in Hrun by lia.
    rewrite Hrun. eexists. split.
    + cbn. rewrite <- app_assoc. reflexivity.
    + rewrite map_app, Hev. unfold restore_calls. cbn [List.filter].
      destruct (enabled h =? 0); reflexivity.
Qed.

Lemma restore_all_other hs : forall d x,
  (forall h, h ∈ hs -> enabled h <> 0 -> signum h <> x) ->
  restore_all E hs d x = d x.
Proof.
  induction hs as [|a hs IH]; intros d x Hx; [reflexivity|].
  unfold restore_all in *. cbn [fold_left].
  rewrite IH by (intros h Hh; apply Hx; right; exact Hh).
  unfold restore_entry.
  destruct (enabled a =? 0) eqn:Ea; [reflexivity|].
  destruct (sigaction_err E (signum a) =? 0); [|reflexivity].
  unfold upd.
  destruct (x =? signum a) eqn:Ex; [|reflexivity].
  exfalso. apply (Hx a); [left | lia | lia].
Qed.

Lemma restore_all_restored hs : forall d h,
  NoDup (map signum (List.filter (fun h => negb (enabled h =? 0)) hs)) ->
  h ∈ hs -> enabled h <> 0 -> sigaction_err E (signum h) = 0 ->
  restore_all E hs d (signum h) = previous h.
Proof.
  induction hs as [|a hs IH]; intros d h Hnd Hin Hen Herr.
  - inversion Hin.
  - unfold restore_all in *. cbn [fold_left].
    cbn [List.filter] in Hnd.
    apply elem_of_cons in Hin. destruct Hin as [-> | Hin].
    + replace (enabled a =? 0) with false in Hnd by lia.
      cbn [negb map] in Hnd. apply NoDup_cons in Hnd. destruct Hnd as [Hnotin _].
      change (restore_all E hs (restore_entry E d a) (signum a) = previous a).
      rewrite restore_all_other.
      * unfold restore_entry, upd.
        replace (enabled a =? 0) with false by lia.
        replace (sigaction_err E (signum a) =? 0) with true by lia.
        rewrite Z.eqb_refl. reflexivity.
      * intros h Hh Hhen Heq. apply Hnotin.
        apply list_elem_of_In, in_map_iff. exists h. split; [exact Heq|].
        apply filter_In. split; [apply list_elem_of_In, Hh | ].
        apply negb_true_iff. lia.
    + apply IH; try assumption.
      destruct (negb (enabled a =? 0)); [|exact Hnd].
      cbn [map] in Hnd. apply NoDup_cons in Hnd. tauto.
Qed.

(** [disable()] from an enabled state whose table has its declared size. *)
Lemma disable_enabled_run s :
  faulthandler_enabled s <> 0 ->
  length (fault_handlers s) = NFAULT_SIGNALS P ->
  exists t,
    faulthandler_disable P E s
    = (Done (Some Py_None),
       with_sig_disp (restore_all E (fault_handlers s) (sig_disp s))
         (with_fault_handlers (map (with_enabled 0) (fault_handlers s))
            (with_faulthandler_enabled 0 s)),
       t)
    /\ map fst t = restore_calls (fault_handlers s).
Proof.
  intros Hen Hlen.
  unfold faulthandler_disable, bind, get, modify.
  replace (faulthandler_enabled s =? 0) with false by lia.
  destruct (disable_loop (fault_handlers s) [] (with_faulthandler_enabled 0 s)
              eq_refl) as (t & Hrun & Hev).
  cbn [length fault_handlers with_faulthandler_enabled] in Hrun.
  rewrite <- Hlen, Hrun. cbn.
  exists t. split; [|exact Hev].
  rewrite app_nil_r. reflexivity.
Qed.

(** C3.  [disable()] does nothing when the state is already Disabled.
    Otherwise it issues one restoring [sigaction] call for each table entry
    whose [enabled] flag is set, in table order, passing that entry's stored
    [previous] disposition; it clears the flag, so that every entry ends
    disabled and only the flags differ from the table before; and it sets the
    state to Disabled.  When the signal numbers of the entries restored are
    pairwise different and the kernel accepts them, each such signal ends with
    the disposition stored in its entry.  Nothing else of the process
    changes. *)
Theorem disable_restores_previous_and_clears (s : proc) :
  (faulthandler_enabled s = 0 ->
   faulthandler_disable P E s = (Done (Some Py_None), s, []))
  /\
  (faulthandler_enabled s <> 0 ->
   length (fault_handlers s) = NFAULT_SIGNALS P ->
   let r := faulthandler_disable P E s in
   result_of r = Done (Some Py_None)
   /\ faulthandler_enabled (state_of r) = 0
   /\ events_of r = restore_calls (fault_handlers s)
   /\ fault_handlers (state_of r) = map (with_enabled 0) (fault_handlers s)
   /\ (forall h, h ∈ fault_handlers (state_of r) -> enabled h = 0)
   /\ (NoDup (map signum
                (List.filter (fun h => negb (enabled h =? 0)) (fault_handlers s))) ->
       forall h, h ∈ fault_handlers s -> enabled h <> 0 ->
                 sigaction_err E (signum h) = 0 ->
                 sig_disp (state_of r) (signum h) = previous h)
   /\ (forall x, (forall h, h ∈ fault_handlers s -> enabled h <> 0 -> signum h <> x) ->
                 sig_disp (state_of r) x = sig_disp s x)
   /\ fatal_error_fd (state_of r) = fatal_error_fd s
   /\ stack (state_of r) = stack s
   /\ fault_alarm (state_of r) = fault_alarm s
   /\ py_err (state_of r) = py_err s
   /\ alarm_timer (state_of r) = alarm_timer s
   /\ altstack (state_of r) = altstack s
   /\ exitfuncs (state_of r) = exitfuncs s).
Proof.
  split.
  - intros Hdis. unfold faulthandler_disable, bind, get, ret.
    rewrite Hdis. reflexivity.
  - intros Hen Hlen r.
    destruct (disable_enabled_run s Hen Hlen) as (t & Hrun & Hev).
    subst r. rewrite Hrun.
    unfold result_of, state_of, events_of. cbn.
    repeat split; try reflexivity.
    + exact Hev.
    + intros h Hh. apply list_elem_of_In, in_map_iff in Hh.
      destruct Hh as (h0 & <- & _). reflexivity.
    + intros Hnd h Hh Hhen Herr. apply restore_all_restored; assumption.
    + intros x Hx. apply restore_all_other. exact Hx.
Qed.

End Disable.

(** ** disable after enable *)

Section RoundTrip.

Variable P : platform.
Variable E : environ.

Lemma restore_all_ext hs : forall d d',
  (forall y, d y = d' y) ->
  forall y, restore_all E hs d y = restore_all E hs d' y.
Proof.
  induction hs as [|a hs IH]; intros d d' Heq y; [apply Heq|].
  unfold restore_all in *. cbn [fold_left]. apply IH.
  intros z. unfold restore_entry.
  destruct (enabled a =? 0); [apply Heq|].
  destruct (sigaction_err E (signum a) =? 0); [|apply Heq].
  unfold upd. destruct (z =? signum a); [reflexivity | apply Heq].
Qed.

Lemma restore_all_upd_other hs : forall d k v x,
  x <> k -> restore_all E hs (upd d k v) x = restore_all E hs d x.
Proof.
  induction hs as [|a hs IH]; intros d k v x Hne.
  - cbn. unfold upd. replace (x =? k) with false by lia. reflexivity.
  - change (restore_all E hs (restore_entry E (upd d k v) a) x
            = restore_all E hs (restore_entry E d a) x).
    unfold restore_entry.
    destruct (enabled a =? 0); [apply IH, Hne|].
    destruct (sigaction_err E (signum a) =? 0); [|apply IH, Hne].
    destruct (decide (signum a = k)) as [<-|Hk].
    + apply restore_all_ext. intros y. unfold upd.
      destruct (y =? signum a); reflexivity.
    + rewrite <- (IH (upd d (signum a) (previous a)) k v x Hne).
      apply restore_all_ext. intros y. unfold upd.
      destruct (y =? signum a) eqn:E1, (y =? k) eqn:E2; try reflexivity. lia.
Qed.

(** The restoring calls of disable undo the installing calls of enable,
    the signal numbers being pairwise different. *)
Lemma restore_after_install hs : forall d x,
  NoDup (map signum hs) ->
  (forall h, h ∈ hs -> enabled h = 0) ->
  restore_all E (fst (install_all P E hs d)) (snd (install_all P E hs d)) x = d x.
Proof.
  induction hs as [|h hs IH]; intros d x Hnd Hdis; [reflexivity|].
  cbn [map] in Hnd. apply NoDup_cons in Hnd. destruct Hnd as [Hnotin Hnd].
  assert (Hdis' : forall h', h' ∈ hs -> enabled h' = 0)
    by (intros h' Hh'; apply Hdis; right; exact Hh').
  cbn [install_all].
  destruct (sigaction_err E (signum h) =? 0) eqn:Eerr; cbn [fst snd].
  - set (d1 := upd d (signum h) (fatal_action P)).
    set (r := install_all P E hs d1).
    change (restore_all E (fst r)
              (restore_entry E (snd r)
                 (with_enabled 1 (with_previous (d (signum h)) h))) x = d x).
    unfold restore_entry.
    cbn [enabled with_enabled signum with_previous previous Z.eqb]. rewrite Eerr.
    destruct (decide (x = signum h)) as [->|Hne].
    + rewrite restore_all_other.
      * unfold upd. rewrite Z.eqb_refl. reflexivity.
      * intros h' Hh' _ Heq. apply Hnotin.
        subst r. apply list_elem_of_In.
        rewrite <- (install_all_signum P E hs d1).
        apply in_map_iff. exists h'. split; [exact Heq | apply list_elem_of_In, Hh'].
    + rewrite restore_all_upd_other by exact Hne.
      subst r. rewrite IH by assumption.
      subst d1. unfold upd. replace (x =? signum h) with false by lia. reflexivity.
  - change (restore_all E (fst (install_all P E hs d))
              (restore_entry E (snd (install_all P E hs d)) h) x = d x).
    unfold restore_entry. rewrite (Hdis h) by left. cbn [Z.eqb].
    apply IH; assumption.
Qed.

(** X1.  For every signal, disable after a successful enable leaves the
    disposition the signal had before enable, the fault signals of the
    platform having pairwise different numbers. *)
Lemma disable_after_enable_restores (E' : environ) (s : proc) :
  faulthandler_enabled s = 0 ->
  stderr_fileno E <> -1 ->
  length (fault_handlers s) = NFAULT_SIGNALS P ->
  NoDup (fault_signals P) ->
  (forall x, sigaction_err E' x = sigaction_err E x) ->
  forall x,
    sig_disp (state_of (faulthandler_disable P E'
                          (state_of (faulthandler_enable P E s)))) x
    = sig_disp s x.
Proof.
  intros Hdis Hfd Hlen Hnd Hsame x.
  destruct (enable_run P E s Hdis Hfd Hlen) as (t & -> & _).
  unfold state_of at 2. cbn [fst snd].
  set (s1 := after_install P E _).
  destruct (disable_enabled_run P E' s1) as (t' & -> & _).
  { subst s1. cbn. discriminate. }
  { subst s1. cbn [fault_handlers after_install].
    match goal with
    | |- length ?l = _ =>
        transitivity (length (map signum l)); [symmetry; apply length_map|]
    end.
    rewrite install_all_signum, length_map.
    apply length_filled. exact Hlen. }
  unfold state_of. cbn [fst snd sig_disp with_sig_disp].
  subst s1. cbn [fault_handlers sig_disp after_install with_faulthandler_enabled
                  with_fatal_error_fd].
  transitivity (restore_all E
                  (fst (install_all P E
                          (zip_with (fill_entry P) (fault_signals P) (fault_handlers s))
                          (sig_disp s)))
                  (snd (install_all P E
                          (zip_with (fill_entry P) (fault_signals P) (fault_handlers s))
                          (sig_disp s))) x).
  - generalize (snd (install_all P E
                       (zip_with (fill_entry P) (fault_signals P) (fault_handlers s))
                       (sig_disp s))) as d0.
    generalize (fst (install_all P E
                       (zip_with (fill_entry P) (fault_signals P) (fault_handlers s))
                       (sig_disp s))) as l.
    clear -Hsame. induction l as [|a l IH]; intros d0; [reflexivity|].
    change (restore_all E' l (restore_entry E' d0 a) x
            = restore_all E l (restore_entry E d0 a) x).
    unfold restore_entry. rewrite Hsame. apply IH.
  - apply restore_after_install.
    + rewrite filled_signum; [exact Hnd | rewrite Hlen; reflexivity].
    + apply filled_all_disabled.
Qed.

End RoundTrip.

Lemma app_enabled_proc_table :
  fault_handlers app_enabled_proc
  = [ {| signum := 7; enabled := 1; name := Some "Bus error"%string;
         previous := default_action |};
      {| signum := 4; enabled := 1; name := Some "Illegal instruction"%string;
         previous := default_action |};
      {| signum := 8; enabled := 1; name := Some "Floating point exception"%string;
         previous := {| sa_handler := SIG_IGN; sa_mask := []; sa_flags := 0 |} |};
      {| signum := 11; enabled := 1; name := Some "Segmentation fault"%string;
         previous := app_segv_action |} ].
Proof. vm_compute. reflexivity. Qed.

Lemma disable_restores_previous_and_clears_witness :
  faulthandler_disable linux env_ok app_proc = (Done (Some Py_None), app_proc, [])
  /\ faulthandler_enabled app_enabled_proc <> 0
  /\ length (fault_handlers app_enabled_proc) = NFAULT_SIGNALS linux
  /\ sig_disp (state_of (faulthandler_disable linux env_ok app_enabled_proc)) 11
     = app_segv_action
  /\ sig_disp (state_of (faulthandler_disable linux env_ok app_enabled_proc)) 14
     = default_action.
Proof.
  pose proof (disable_restores_previous_and_clears linux env_ok app_proc) as [H0 _].
  pose proof (disable_restores_previous_and_clears linux env_ok app_enabled_proc)
    as [_ H1].
  split; [apply H0; vm_compute; reflexivity|].
  assert (Hen : faulthandler_enabled app_enabled_proc <> 0)
    by (vm_compute; discriminate).
  assert (Hlen : length (fault_handlers app_enabled_proc) = NFAULT_SIGNALS linux)
    by (vm_compute; reflexivity).
  split; [exact Hen|]. split; [exact Hlen|].
  destruct (H1 Hen Hlen) as (_ & _ & _ & _ & _ & Hrest & Hother & _).
  rewrite app_enabled_proc_table in Hrest, Hother.
  split.
  - refine (Hrest _ {| signum := 11; enabled := 1;
                       name := Some "Segmentation fault"%string;
                       previous := app_segv_action |} _ _ eq_refl).
    + vm_compute.
      repeat (apply NoDup_cons_2;
              [intros Hx; apply list_elem_of_In in Hx; cbn in Hx;
               intuition discriminate|]);
      apply NoDup_nil_2.
    + apply (list_elem_of_lookup_2 _ 3%nat). reflexivity.
    + discriminate.
  - rewrite Hother.
    + vm_compute. reflexivity.
    + intros h Hh _. apply list_elem_of_In in Hh. cbn in Hh.
      destruct Hh as [<-|[<-|[<-|[<-|[]]]]]; discriminate.
Defined.

(** ** The fatal fault handler *)

Lemma append_empty_r (a : string) : a +:+ "" = a.
Proof.
  induction a as [|c a IH]; [reflexivity|].
  change (String c (a +:+ "") = String c a). f_equal. exact IH.
Qed.

Lemma append_assoc_r (a b c : string) : (a +:+ b) +:+ c = a +:+ (b +:+ c).
Proof.
  induction a as [|x a IH]; [reflexivity|].
  change (String x ((a +:+ b) +:+ c) = String x (a +:+ (b +:+ c))).
  f_equal. exact IH.
Qed.

Lemma prefix_append (a b : string) : String.prefix a (a +:+ b) = true.
Proof.
  induction a as [|x a IH].
  - destruct b; reflexivity.
  - change (String.prefix (String x a) (String x (a +:+ b)) = true).
    cbn [String.prefix].
    destruct (ascii_dec x x) as [_|Hne]; [exact IH | contradiction].
Qed.

Section FatalError.

Variable P : platform.
Variable E : environ.

Lemma NFAULT_SIGNALS_ge_2 : (2 <= NFAULT_SIGNALS P)%nat.
Proof.
  unfold NFAULT_SIGNALS, fault_signals. rewrite !length_app. cbn. lia.
Qed.

Lemma last_fault_signal : last (fault_signals P) = Some (SIGSEGV P).
Proof.
  unfold fault_signals.
  destruct (SIGBUS P), (SIGILL P); reflexivity.
Qed.

Lemma populated_length tbl : populated P tbl -> length tbl = NFAULT_SIGNALS P.
Proof. intros H. symmetry. exact (Forall2_length _ _ _ H). Qed.

Lemma populated_lookup tbl i h :
  populated P tbl -> tbl !! i = Some h ->
  exists sig, fault_signals P !! i = Some sig
              /\ signum h = sig /\ name h = Some (handler_name P sig).
Proof.
  intros Hp Hi.
  destruct (Forall2_lookup_r _ _ _ _ _ Hp Hi) as (sig & Hsig & Hs & Hn).
  exists sig. auto.
Qed.

(** The search leaves the loop at the first entry whose number is [sig]. *)
Lemma search_handler_first tbl sig k h :
  tbl !! k = Some h -> signum h = sig ->
  (forall j h', (j < k)%nat -> tbl !! j = Some h' -> signum h' <> sig) ->
  forall n i cur, (i <= k < i + n)%nat ->
    search_handler tbl sig i n cur = Some k.
Proof.
  intros Hk Hsig Hbefore.
  induction n as [|n IH]; intros i cur Hr; [lia|].
  cbn [search_handler].
  destruct (decide (i = k)) as [->|Hne].
  - rewrite Hk. replace (signum h =? sig) with true by lia. reflexivity.
  - assert (Hlt : (i < k)%nat) by lia.
    assert (Hsome : is_Some (tbl !! i)).
    { apply lookup_lt_is_Some. apply lookup_lt_Some in Hk. lia. }
    destruct Hsome as [h' Hi]. rewrite Hi.
    pose proof (Hbefore i h' Hlt Hi).
    replace (signum h' =? sig) with false by lia.
    apply IH. lia.
Qed.

(** With no entry of number [sig] the loop runs to its end and [handler]
    is left pointing to the last entry visited. *)
Lemma search_handler_none tbl sig :
  (forall j h', tbl !! j = Some h' -> signum h' <> sig) ->
  forall n i cur, (i + n <= length tbl)%nat ->
    search_handler tbl sig i n cur
    = match n with O => cur | S n' => Some (i + n')%nat end.
Proof.
  intros Hno. induction n as [|n IH]; intros i cur Hlen; [reflexivity|].
  cbn [search_handler].
  assert (Hsome : is_Some (tbl !! i)) by (apply lookup_lt_is_Some; lia).
  destruct Hsome as [h' Hi]. rewrite Hi.
  pose proof (Hno i h' Hi).
  replace (signum h' =? sig) with false by lia.
  rewrite IH by lia.
  destruct n; f_equal; lia.
Qed.

(** On a table of the declared size the search always ends on an entry. *)
Lemma search_handler_total tbl sig :
  forall n i cur, (i + n <= length tbl)%nat -> (0 < n)%nat ->
    exists k h, search_handler tbl sig i n cur = Some k /\ tbl !! k = Some h.
Proof.
  induction n as [|n IH]; intros i cur Hlen Hpos; [lia|].
  cbn [search_handler].
  assert (Hsome : is_Some (tbl !! i)) by (apply lookup_lt_is_Some; lia).
  destruct Hsome as [h' Hi]. rewrite Hi.
  destruct (signum h' =? sig).
  - exists i, h'. auto.
  - destruct n as [|n].
    + exists i, h'. auto.
    + apply IH; lia.
Qed.

(** The state the handler leaves behind once it has restored the entry [i]:
    the kernel has the stored disposition back (when it accepts the call)
    and the flag of the entry is 0. *)
Lemma fatal_error_run s sig i h :
  search_handler (fault_handlers s) sig 0 (NFAULT_SIGNALS P) None = Some i ->
  fault_handlers s !! i = Some h ->
  let s1 := if sigaction_err E (signum h) =? 0
            then with_sig_disp (upd (sig_disp s) (signum h) (previous h)) s
            else s in
  let s2 := with_fault_handlers (<[i := with_enabled 0 h]> (fault_handlers s)) s1 in
  let d := fatal_error_fd s in
  faulthandler_fatal_error P E sig s
  = match name h with
    | Some nm =>
        (Done tt, s2,
         [(EvSigaction (signum h) (previous h), s);
          (EvWrite d "Fatal Python error: ", s2);
          (EvWrite d nm, s2);
          (EvWrite d (NL +:+ NL), s2);
          (EvDumpBacktrace d, s2)])
    | None =>
        (Crash, s2,
         [(EvSigaction (signum h) (previous h), s);
          (EvWrite d "Fatal Python error: ", s2)])
    end.
Proof.
  intros Hfind Hi.
  assert (Hlt : (i < length (fault_handlers s))%nat)
    by (apply lookup_lt_is_Some; eauto).
  unfold faulthandler_fatal_error, bind, get, find_handler.
  rewrite Hfind. unfold handler_at at 1. rewrite Hi.
  unfold sigaction, handler_set, bind, handler_at, modify.
  destruct (sigaction_err E (signum h) =? 0);
    cbn [fault_handlers with_sig_disp]; rewrite Hi;
    cbn [PUTS call fault_handlers with_fault_handlers];
    rewrite list_lookup_insert_eq by exact Hlt;
    cbn [name with_enabled];
    destruct (name h); reflexivity.
Qed.


(** C4, as amended.  Once the entry is found and has its name, what the
    handler sends to the cached descriptor [fatal_error_fd] is, in this
    order and through PUTS (raw writes): the fixed text
    "Fatal Python error: ", the display name of the entry, and two
    newlines; the backtrace provider is called on the same descriptor
    after them.  The text written therefore begins with
    "Fatal Python error: " followed by the name. *)
Theorem fatal_error_message (s : proc) (sig : Z) (i : nat) (h : fault_handler_t)
    (nm : string) :
  search_handler (fault_handlers s) sig 0 (NFAULT_SIGNALS P) None = Some i ->
  fault_handlers s !! i = Some h ->
  name h = Some nm ->
  let r := faulthandler_fatal_error P E sig s in
  let d := fatal_error_fd s in
  result_of r = Done tt
  /\ List.filter is_diagnostic (events_of r)
     = [EvWrite d "Fatal Python error: "; EvWrite d nm; EvWrite d (NL +:+ NL);
        EvDumpBacktrace d]
  /\ written d (events_of r) = "Fatal Python error: " +:+ nm +:+ NL +:+ NL
  /\ String.prefix ("Fatal Python error: " +:+ nm) (written d (events_of r)) = true.
Proof.
  intros Hfind Hi Hnm r d. subst r.
  rewrite (fatal_error_run s sig i h Hfind Hi). rewrite Hnm.
  unfold result_of, events_of. cbn [fst snd map List.filter is_diagnostic written].
  fold d. rewrite Z.eqb_refl.
  split; [reflexivity|]. split; [reflexivity|].
  rewrite append_empty_r.
  split; [reflexivity|].
  rewrite <- append_assoc_r. apply prefix_append.
Qed.

(** C5.  On a table filled by enable, the handler's search is a linear
    scan: it stops at the first entry whose signal number is the one
    delivered.  For a signal number that no entry has, it ends on the last
    entry of the table, and that entry is the one of SIGSEGV, which is the
    last element of [fault_signals]; its name is "Segmentation fault"
    unless SIGSEGV has the same number as one of the other fault signals. *)
Theorem fatal_error_search_falls_back_to_segv (s : proc) (sig : Z) :
  populated P (fault_handlers s) ->
  (forall k h, fault_handlers s !! k = Some h -> signum h = sig ->
     (forall j h', (j < k)%nat -> fault_handlers s !! j = Some h' -> signum h' <> sig) ->
     find_handler P sig s = (Done k, s, []))
  /\
  ((forall x, x ∈ fault_signals P -> x <> sig) ->
   exists h,
     find_handler P sig s = (Done (NFAULT_SIGNALS P - 1)%nat, s, [])
     /\ fault_handlers s !! (NFAULT_SIGNALS P - 1)%nat = Some h
     /\ last (fault_handlers s) = Some h
     /\ last (fault_signals P) = Some (SIGSEGV P)
     /\ signum h = SIGSEGV P
     /\ name h = Some (handler_name P (SIGSEGV P))
     /\ (SIGSEGV P <> SIGFPE P ->
         is_defined_signal (SIGBUS P) (SIGSEGV P) = false ->
         is_defined_signal (SIGILL P) (SIGSEGV P) = false ->
         name h = Some "Segmentation fault"%string)).
Proof.
  intros Hpop. pose proof (populated_length _ Hpop) as Hlen.
  split.
  - intros k h Hk Hsig Hbefore. unfold find_handler.
    rewrite (search_handler_first _ sig k h Hk Hsig Hbefore).
    + reflexivity.
    + apply lookup_lt_Some in Hk. lia.
  - intros Hno.
    assert (Hnone : forall j h', fault_handlers s !! j = Some h' -> signum h' <> sig).
    { intros j h' Hj.
      destruct (populated_lookup _ _ _ Hpop Hj) as (x & Hx & -> & _).
      apply Hno. eapply list_elem_of_lookup_2. exact Hx. }
    pose proof NFAULT_SIGNALS_ge_2 as Hge.
    assert (Hsome : is_Some (fault_handlers s !! (NFAULT_SIGNALS P - 1)%nat))
      by (apply lookup_lt_is_Some; lia).
    destruct Hsome as [h Hh]. exists h.
    destruct (populated_lookup _ _ _ Hpop Hh) as (x & Hx & Hsignum & Hname).
    assert (Hlast : last (fault_signals P) = Some x).
    { rewrite last_lookup. fold (NFAULT_SIGNALS P).
      replace (pred (NFAULT_SIGNALS P)) with (NFAULT_SIGNALS P - 1)%nat by lia.
      exact Hx. }
    rewrite last_fault_signal in Hlast. injection Hlast as <-.
    split.
    { unfold find_handler.
      rewrite (search_handler_none _ sig Hnone) by lia.
      destruct (NFAULT_SIGNALS P) as [|n] eqn:En; [lia|].
      cbn. replace (n - 0)%nat with n by lia. reflexivity. }
    split; [exact Hh|].
    split.
    { rewrite last_lookup, Hlen.
      replace (pred (NFAULT_SIGNALS P)) with (NFAULT_SIGNALS P - 1)%nat by lia.
      exact Hh. }
    split; [apply last_fault_signal|].
    split; [exact Hsignum|].
    split; [exact Hname|].
    intros Hfpe Hbus Hill. rewrite Hname. unfold handler_name.
    replace (SIGSEGV P =? SIGFPE P) with false by lia.
    rewrite Hbus, Hill. reflexivity.
Qed.

End FatalError.


(** C4 as stated fails: for SIGSEGV in an enabled Linux process the text
    sent to the descriptor is "Fatal Python error: Segmentation fault" and a
    blank line; it does not begin with "Fatal error: ". *)
Lemma fatal_error_message_counterexample :
  written (fatal_error_fd app_enabled_proc)
    (events_of (faulthandler_fatal_error linux env_ok 11 app_enabled_proc))
  = "Fatal Python error: Segmentation fault" +:+ NL +:+ NL
  /\ String.prefix ("Fatal error: " +:+ "Segmentation fault")
       (written (fatal_error_fd app_enabled_proc)
          (events_of (faulthandler_fatal_error linux env_ok 11 app_enabled_proc)))
     = false.
Proof. split; vm_compute; reflexivity. Qed.

Lemma fatal_error_message_witness :
  search_handler (fault_handlers app_enabled_proc) 11 0 (NFAULT_SIGNALS linux) None
  = Some 3%nat
  /\ fault_handlers app_enabled_proc !! 3%nat
     = Some {| signum := 11; enabled := 1; name := Some "Segmentation fault"%string;
               previous := app_segv_action |}
  /\ List.filter is_diagnostic
       (events_of (faulthandler_fatal_error linux env_ok 11 app_enabled_proc))
     = [EvWrite 2 "Fatal Python error: "; EvWrite 2 "Segmentation fault";
        EvWrite 2 (NL +:+ NL); EvDumpBacktrace 2].
Proof.
  split; [reflexivity|]. split; [reflexivity|].
  apply (fatal_error_message linux env_ok app_enabled_proc 11 3%nat
           {| signum := 11; enabled := 1; name := Some "Segmentation fault"%string;
              previous := app_segv_action |} "Segmentation fault");
    reflexivity.
Defined.

Lemma app_enabled_proc_populated : populated linux (fault_handlers app_enabled_proc).
Proof.
  unfold populated. rewrite app_enabled_proc_table.
  repeat (constructor; [split; reflexivity|]). constructor.
Qed.

Lemma fatal_error_search_falls_back_to_segv_witness :
  populated linux (fault_handlers app_enabled_proc)
  /\ find_handler linux 8 app_enabled_proc = (Done 2%nat, app_enabled_proc, [])
  /\ exists h,
       find_handler linux 99 app_enabled_proc
       = (Done (NFAULT_SIGNALS linux - 1)%nat, app_enabled_proc, [])
       /\ signum h = 11
       /\ name h = Some "Segmentation fault"%string.
Proof.
  split; [exact app_enabled_proc_populated|].
  destruct (fatal_error_search_falls_back_to_segv linux app_enabled_proc 8
              app_enabled_proc_populated) as [Hfirst _].
  destruct (fatal_error_search_falls_back_to_segv linux app_enabled_proc 99
              app_enabled_proc_populated) as [_ Hlast].
  split.
  - apply (Hfirst 2%nat
             {| signum := 8; enabled := 1; name := Some "Floating point exception"%string;
                previous := {| sa_handler := SIG_IGN; sa_mask := []; sa_flags := 0 |} |});
      [reflexivity | reflexivity |].
    intros j h' Hj Hh'.
    rewrite app_enabled_proc_table in Hh'.
    destruct j as [|[|j]]; [| |lia]; cbn in Hh'; injection Hh' as <-;
      discriminate.
  - destruct Hlast as (h & Hrun & _ & _ & _ & Hsig & _ & Hname).
    + intros x Hx. apply list_elem_of_In in Hx. vm_compute in Hx.
      destruct Hx as [<-|[<-|[<-|[<-|[]]]]]; discriminate.
    + exists h. split; [exact Hrun|]. split; [exact Hsig|].
      apply Hname; [discriminate | reflexivity | reflexivity].
Defined.


(** ** enable: the claims *)

Section EnableClaims.

Variable P : platform.
Variable E : environ.

(** C2.  In the Enabled state [enable()] returns None at once: the process
    state, with the Handler Table, the cached descriptor and the alternate
    stack, is the one it was called in, and no call is made.  Hence after an
    [enable()] that returned normally, a second [enable()], whatever the
    environment answers, changes nothing: the table after two calls is the
    table after one.  (After an [enable()] that failed for want of a
    descriptor the table is the one before, and so it is after a second
    such call.) *)
Theorem enable_twice_same_as_once (E' : environ) (s : proc) :
  (faulthandler_enabled s <> 0 ->
   faulthandler_enable P E s = (Done (Some Py_None), s, []))
  /\
  (forall v, result_of (faulthandler_enable P E s) = Done (Some v) ->
     let s1 := state_of (faulthandler_enable P E s) in
     faulthandler_enable P E' s1 = (Done (Some Py_None), s1, [])
     /\ fault_handlers (state_of (faulthandler_enable P E' s1)) = fault_handlers s1)
  /\
  (faulthandler_enabled s = 0 -> stderr_fileno E = -1 ->
     let s1 := state_of (faulthandler_enable P E s) in
     fault_handlers s1 = fault_handlers s
     /\ fault_handlers (state_of (faulthandler_enable P E s1)) = fault_handlers s1).
Proof.
  split; [apply enable_already_enabled|].
  split; cycle 1.
  { intros Hdis Hfd s1. subst s1.
    rewrite (enable_no_stderr P E s Hdis Hfd). unfold state_of at 1 2 4. cbn [fst snd].
    rewrite enable_no_stderr by (try exact Hfd; exact Hdis).
    split; reflexivity. }
  intros v Hres s1.
  assert (Hen : faulthandler_enabled s1 <> 0).
  { subst s1. destruct (decide (faulthandler_enabled s = 0)) as [Hdis|Hen].
    - destruct (decide (stderr_fileno E = -1)) as [Hfd|Hfd].
      + rewrite (enable_no_stderr P E s Hdis Hfd) in Hres. discriminate.
      + rewrite (enable_proceeds P E s Hdis Hfd). cbv zeta. unfold state_of at 1.
        cbn [fst snd].
        destruct (enable_install_keeps_enabled P E 1
                    (with_faulthandler_enabled 1
                       (with_fatal_error_fd (stderr_fileno E) s)) eq_refl)
          as [H1 _].
        rewrite H1. discriminate.
    - rewrite (enable_already_enabled P E s Hen). exact Hen. }
  rewrite (enable_already_enabled P E' s1 Hen). split; reflexivity.
Qed.


(** C10.  In the Disabled state, once the descriptor of stderr is obtained,
    [enable()] stores 1 in [faulthandler_enabled] before the stack
    allocation, the stack registration and every [sigaction] call: each of
    these calls is issued in a state where the flag is already 1.  The flag
    is still 1 when enable returns, so [isenabled()] then answers True; and
    this is so even when the allocation fails and every [sigaction] call is
    refused, in which case enable still returns None, every entry of the
    table has [enabled = 0], and neither a signal stack nor any disposition
    was changed. *)
Theorem enable_marks_enabled_before_installing (s : proc) :
  faulthandler_enabled s = 0 ->
  stderr_fileno E <> -1 ->
  let r := faulthandler_enable P E s in
  faulthandler_enabled (state_of r) = 1
  /\ faulthandler_isenabled (state_of r) = (Done (Some Py_True), state_of r, [])
  /\ (forall e snap, (e, snap) ∈ trace_of r -> is_installation e = true ->
        faulthandler_enabled snap = 1)
  /\ (length (fault_handlers s) = NFAULT_SIGNALS P ->
      PyMem_Malloc_result E = None ->
      (forall x, sigaction_err E x <> 0) ->
      result_of r = Done (Some Py_None)
      /\ length (fault_handlers (state_of r)) = NFAULT_SIGNALS P
      /\ (forall h, h ∈ fault_handlers (state_of r) -> enabled h = 0)
      /\ List.filter is_installation (events_of r)
         = EvMalloc (SIGSTKSZ P)
           :: map (fun sig => EvSigaction sig (fatal_action P)) (fault_signals P)
      /\ ss_sp (stack (state_of r)) = None
      /\ altstack (state_of r) = altstack s
      /\ sig_disp (state_of r) = sig_disp s).
Proof.
  intros Hdis Hfd r. subst r.
  rewrite (enable_proceeds P E s Hdis Hfd). cbv zeta.
  set (s0 := with_faulthandler_enabled 1 (with_fatal_error_fd (stderr_fileno E) s)).
  destruct (enable_install_keeps_enabled P E 1 s0 eq_refl) as [Hfin Hcalls].
  unfold state_of at 1 2 3, trace_of at 1, result_of at 1. cbn [fst snd].
  split; [exact Hfin|].
  split.
  { unfold faulthandler_isenabled, bind, get, ret, PyBool_FromLong.
    rewrite Hfin. reflexivity. }
  split.
  { intros e snap Hin Hinst. apply elem_of_cons in Hin.
    destruct Hin as [Heq|Hin].
    - injection Heq as -> _. discriminate.
    - rewrite Forall_forall in Hcalls. apply (Hcalls (e, snap)). exact Hin. }
  intros Hlen Hmalloc Hrefused.
  destruct (enable_install_run P E s0 Hlen) as (t & Hrun & Hev).
  rewrite Hrun. unfold result_of, state_of, events_of, trace_of. cbn [fst snd map].
  unfold after_install. cbn [fault_handlers stack ss_sp altstack sig_disp].
  rewrite install_all_refused by exact Hrefused. cbn [fst snd].
  unfold altstack_after. rewrite Hmalloc.
  split; [reflexivity|].
  split; [apply (length_filled P s0 Hlen)|].
  split; [apply filled_all_disabled|].
  split.
  { rewrite Hev. unfold enable_install_calls. rewrite Hmalloc.
    cbn [List.filter is_installation app]. f_equal.
    apply forallb_filter_id, forallb_forall.
    intros e He. apply in_map_iff in He. destruct He as (x & <- & _). reflexivity. }
  split; [reflexivity|]. split; reflexivity.
Qed.

End EnableClaims.

(** ** The watchdog *)

Section Watchdog.

Variable P : platform.
Variable E : environ.

(** C6.  With a delay of zero or less, [dumpbacktrace_later] returns NULL
    with ValueError set and has done nothing else: no call was made (stderr
    not flushed, no [signal], no [alarm]), and the process state differs
    from the one before in the error indicator only, so [fault_alarm], the
    disposition of every signal and the pending timer are the same. *)
Theorem dumpbacktrace_later_rejects_nonpositive_delay
    (d rep allt : Z) (s : proc) :
  d <= 0 ->
  let r := faulthandler_dumpbacktrace_later P E d rep allt s in
  result_of r = Done None
  /\ trace_of r = []
  /\ state_of r
     = with_py_err (Some (PyExc_ValueError, "delay must be greater than 0"%string)) s
  /\ fault_alarm (state_of r) = fault_alarm s
  /\ sig_disp (state_of r) = sig_disp s
  /\ alarm_timer (state_of r) = alarm_timer s.
Proof.
  intros Hd r. subst r.
  unfold faulthandler_dumpbacktrace_later.
  replace (d <=? 0) with true by lia.
  repeat split; reflexivity.
Qed.

(** The runs of the timer handler, case by case. *)
Lemma alarm_run_current_thread sig s :
  all_threads (fault_alarm s) = 0 ->
  let fa := fault_alarm s in
  let secs := if repeat fa =? 0 then 0 else delay fa in
  faulthandler_alarm E sig s
  = (Done tt, with_alarm_timer (to_unsigned secs) s,
     [(EvDumpBacktrace (fd fa), s); (EvAlarm secs, s)]).
Proof.
  intros Hall. unfold faulthandler_alarm, bind, get. rewrite Hall.
  cbn [Z.eqb negb]. unfold faulthandler_dump_backtrace, call, ret.
  cbn [Z.eqb negb andb].
  destruct (repeat (fault_alarm s) =? 0); reflexivity.
Qed.

Lemma alarm_run_all_threads sig s tstate :
  all_threads (fault_alarm s) <> 0 ->
  PyGILState_GetThisThreadState E = Some tstate ->
  let fa := fault_alarm s in
  let secs := match dump_backtrace_threads_errmsg E with
              | None => if repeat fa =? 0 then 0 else delay fa
              | Some _ => 0
              end in
  faulthandler_alarm E sig s
  = (Done tt, with_alarm_timer (to_unsigned secs) s,
     [(EvDumpBacktraceThreads (fd fa) tstate, s); (EvAlarm secs, s)]).
Proof.
  intros Hall Htls. unfold faulthandler_alarm, bind at 1, get at 1.
  replace (all_threads (fault_alarm s) =? 0) with false by lia.
  cbn [negb]. rewrite Htls.
  unfold bind, get, faulthandler_dump_backtrace_threads, bind, call, ret.
  destruct (dump_backtrace_threads_errmsg E); cbn [Z.eqb negb andb].
  - reflexivity.
  - destruct (repeat (fault_alarm s) =? 0); reflexivity.
Qed.

Lemma alarm_run_no_thread_state sig s :
  all_threads (fault_alarm s) <> 0 ->
  PyGILState_GetThisThreadState E = None ->
  faulthandler_alarm E sig s = (Done tt, s, []).
Proof.
  intros Hall Htls. unfold faulthandler_alarm, bind, get.
  replace (all_threads (fault_alarm s) =? 0) with false by lia.
  cbn [negb]. rewrite Htls. reflexivity.
Qed.

(** C8.  The watchdog being armed with a positive delay, the timer handler
    calls [alarm(delay)] exactly when a dump was made and did not fail and
    [repeat] is set, and the timer then runs for [delay] seconds again.  In
    the all-threads mode a failure reported by the dump of the threads leads
    to [alarm(0)], the cancellation, whatever [repeat] is.  A dump that
    succeeded without [repeat] leads to [alarm(0)] too: no timer is left
    pending. *)
Theorem alarm_rearms_iff_dump_ok_and_repeat (sig : Z) (s : proc) :
  0 < delay (fault_alarm s) ->
  let r := faulthandler_alarm E sig s in
  let fa := fault_alarm s in
  (alarm_calls (events_of r) = [delay fa]
     <-> dump_succeeded E s = true /\ repeat fa <> 0)
  /\ (alarm_calls (events_of r) = [delay fa] ->
      alarm_timer (state_of r) = to_unsigned (delay fa))
  /\ (forall tstate msg,
        all_threads fa <> 0 ->
        PyGILState_GetThisThreadState E = Some tstate ->
        dump_backtrace_threads_errmsg E = Some msg ->
        alarm_calls (events_of r) = [0] /\ alarm_timer (state_of r) = 0)
  /\ (dump_succeeded E s = true -> repeat fa = 0 ->
      alarm_calls (events_of r) = [0] /\ alarm_timer (state_of r) = 0).
Proof.
  intros Hdelay r fa. subst r fa. unfold dump_succeeded.
  destruct (decide (all_threads (fault_alarm s) = 0)) as [Hall|Hall].
  - rewrite (alarm_run_current_thread sig s Hall). cbv zeta.
    rewrite Hall. cbn [Z.eqb].
    unfold events_of, state_of.
    cbn [fst snd map alarm_calls alarm_timer with_alarm_timer].
    destruct (repeat (fault_alarm s) =? 0) eqn:Erep; alarm_cases.
  - replace (all_threads (fault_alarm s) =? 0) with false by lia.
    destruct (PyGILState_GetThisThreadState E) as [tstate|] eqn:Htls.
    + rewrite (alarm_run_all_threads sig s tstate Hall Htls). cbv zeta.
      unfold events_of, state_of.
      cbn [fst snd map alarm_calls alarm_timer with_alarm_timer].
      destruct (dump_backtrace_threads_errmsg E) as [msg|] eqn:Emsg;
        [|destruct (repeat (fault_alarm s) =? 0) eqn:Erep]; alarm_cases.
    + rewrite (alarm_run_no_thread_state sig s Hall Htls).
      unfold events_of, state_of. cbn [fst snd map alarm_calls].
      alarm_cases.
Qed.

(** The handler on its own, in the all-threads mode without a thread
    state: it returns at once and the process state is the one it found. *)
Lemma alarm_without_thread_state_does_nothing (sig : Z) (s : proc) :
  all_threads (fault_alarm s) <> 0 ->
  PyGILState_GetThisThreadState E = None ->
  let r := faulthandler_alarm E sig s in
  result_of r = Done tt
  /\ trace_of r = []
  /\ state_of r = s
  /\ alarm_calls (events_of r) = []
  /\ alarm_timer (state_of r) = alarm_timer s
  /\ py_err (state_of r) = py_err s.
Proof.
  intros Hall Htls r. subst r.
  rewrite (alarm_run_no_thread_state sig s Hall Htls).
  repeat split; reflexivity.
Qed.

End Watchdog.

(** ** The claims at concrete processes *)

Lemma enable_twice_same_as_once_witness :
  faulthandler_enabled app_enabled_proc <> 0
  /\ faulthandler_enable linux env_all_fail app_enabled_proc
     = (Done (Some Py_None), app_enabled_proc, [])
  /\ result_of (faulthandler_enable linux env_ok app_proc) = Done (Some Py_None)
  /\ faulthandler_enable linux env_all_fail
       (state_of (faulthandler_enable linux env_ok app_proc))
     = (Done (Some Py_None), state_of (faulthandler_enable linux env_ok app_proc), []).
Proof.
  pose proof (enable_twice_same_as_once linux env_all_fail env_ok app_enabled_proc)
    as [H1 _].
  pose proof (enable_twice_same_as_once linux env_ok env_all_fail app_proc)
    as (_ & H2 & _).
  assert (Hen : faulthandler_enabled app_enabled_proc <> 0)
    by (vm_compute; discriminate).
  assert (Hres : result_of (faulthandler_enable linux env_ok app_proc)
                 = Done (Some Py_None))
    by (vm_compute; reflexivity).
  split; [exact Hen|]. split; [exact (H1 Hen)|]. split; [exact Hres|].
  destruct (H2 Py_None Hres) as [H _]. exact H.
Defined.



Lemma enable_marks_enabled_before_installing_witness :
  faulthandler_enabled app_proc = 0
  /\ stderr_fileno env_all_fail <> -1
  /\ faulthandler_isenabled
       (state_of (faulthandler_enable linux env_all_fail app_proc))
     = (Done (Some Py_True),
        state_of (faulthandler_enable linux env_all_fail app_proc), [])
  /\ (forall h,
        h ∈ fault_handlers (state_of (faulthandler_enable linux env_all_fail app_proc)) ->
        enabled h = 0)
  /\ sig_disp (state_of (faulthandler_enable linux env_all_fail app_proc))
     = sig_disp app_proc.
Proof.
  assert (Hfd : stderr_fileno env_all_fail <> -1) by discriminate.
  destruct (enable_marks_enabled_before_installing linux env_all_fail app_proc
              eq_refl Hfd) as (_ & Hq & _ & Hfail).
  split; [reflexivity|]. split; [exact Hfd|]. split; [exact Hq|].
  destruct (Hfail eq_refl eq_refl ltac:(intros x; discriminate))
    as (_ & _ & Hall & _ & _ & _ & Hdisp).
  split; [exact Hall | exact Hdisp].
Defined.

Lemma armed_proc_state :
  fault_alarm armed_proc = {| fd := 2; delay := 5; repeat := 0; all_threads := 1 |}
  /\ alarm_timer armed_proc = 5
  /\ sa_handler (sig_disp armed_proc 14) = fn_faulthandler_alarm.
Proof. repeat split; vm_compute; reflexivity. Qed.

Lemma armed_repeat_proc_state :
  fault_alarm armed_repeat_proc
  = {| fd := 2; delay := 5; repeat := 1; all_threads := 1 |}
  /\ alarm_timer armed_repeat_proc = 5.
Proof. repeat split; vm_compute; reflexivity. Qed.

Lemma dumpbacktrace_later_rejects_nonpositive_delay_witness :
  0 <= 0 /\ -5 <= 0
  /\ result_of (faulthandler_dumpbacktrace_later linux env_ok 0 0 0 armed_proc) = Done None
  /\ alarm_timer (state_of (faulthandler_dumpbacktrace_later linux env_ok 0 0 0 armed_proc))
     = 5
  /\ result_of (faulthandler_dumpbacktrace_later linux env_ok (-5) 1 1 armed_proc)
     = Done None
  /\ fault_alarm (state_of (faulthandler_dumpbacktrace_later linux env_ok (-5) 1 1 armed_proc))
     = {| fd := 2; delay := 5; repeat := 0; all_threads := 1 |}.
Proof.
  assert (H0 : 0 <= 0) by lia. assert (H5 : -5 <= 0) by lia.
  destruct armed_proc_state as (Hfa & Htimer & _).
  destruct (dumpbacktrace_later_rejects_nonpositive_delay linux env_ok 0 0 0
              armed_proc H0) as (Hr0 & _ & _ & _ & _ & Ht0).
  destruct (dumpbacktrace_later_rejects_nonpositive_delay linux env_ok (-5) 1 1
              armed_proc H5) as (Hr5 & _ & _ & Hfa5 & _ & _).
  split; [exact H0|]. split; [exact H5|]. split; [exact Hr0|].
  split; [rewrite Ht0; exact Htimer|]. split; [exact Hr5|].
  rewrite Hfa5. exact Hfa.
Defined.

Lemma alarm_rearms_iff_dump_ok_and_repeat_witness :
  0 < delay (fault_alarm armed_repeat_proc)
  /\ alarm_calls (events_of (faulthandler_alarm env_ok 14 armed_repeat_proc)) = [5]
  /\ alarm_calls (events_of (faulthandler_alarm env_dump_fails 14 armed_repeat_proc))
     = [0]
  /\ alarm_timer (state_of (faulthandler_alarm env_dump_fails 14 armed_repeat_proc)) = 0.
Proof.
  destruct armed_repeat_proc_state as (Hfa & _).
  assert (Hd : 0 < delay (fault_alarm armed_repeat_proc))
    by (rewrite Hfa; reflexivity).
  destruct (alarm_rearms_iff_dump_ok_and_repeat env_ok 14 armed_repeat_proc Hd)
    as (Hiff & _).
  destruct (alarm_rearms_iff_dump_ok_and_repeat env_dump_fails 14 armed_repeat_proc Hd)
    as (_ & _ & Hfail & _).
  split; [exact Hd|].
  split.
  - rewrite Hfa in Hiff. apply Hiff. split; [|discriminate].
    unfold dump_succeeded. rewrite Hfa. reflexivity.
  - apply (Hfail 1 "unable to get the thread head state"%string);
      [rewrite Hfa; discriminate | reflexivity | reflexivity].
Defined.

(** ** The watchdog: arming, canceling, unloading *)

Section WatchdogMore.

Variable P : platform.
Variable E : environ.

(** X5.  A positive delay, a descriptor for stderr and a kernel that accepts
    SIGALRM: [dumpbacktrace_later] flushes stderr, makes [faulthandler_alarm]
    the handler of SIGALRM, with the flags and the mask of the C library's
    [signal] (the handler found there is not kept anywhere),
    stores the four fields of [fault_alarm], starts the timer with [delay]
    seconds and returns None.  Nothing else changes.  ([SIG_ERR] is a
    return value of [signal], never a disposition.) *)
Theorem dumpbacktrace_later_arms (d rep allt : Z) (s : proc) :
  0 < d < 2 ^ 31 ->
  stderr_fileno E <> -1 ->
  sigaction_err E (SIGALRM P) = 0 ->
  sa_handler (sig_disp s (SIGALRM P)) <> SIG_ERR ->
  let r := faulthandler_dumpbacktrace_later P E d rep allt s in
  result_of r = Done (Some Py_None)
  /\ events_of r
     = [EvFflushStderr; EvSignal (SIGALRM P) fn_faulthandler_alarm; EvAlarm d]
  /\ fault_alarm (state_of r)
     = {| fd := stderr_fileno E; delay := d; repeat := rep; all_threads := allt |}
  /\ sig_disp (state_of r) (SIGALRM P)
     = signal_action P (SIGALRM P) fn_faulthandler_alarm
  /\ (forall x, x <> SIGALRM P -> sig_disp (state_of r) x = sig_disp s x)
  /\ alarm_timer (state_of r) = d
  /\ py_err (state_of r) = py_err s
  /\ faulthandler_enabled (state_of r) = faulthandler_enabled s
  /\ fatal_error_fd (state_of r) = fatal_error_fd s
  /\ fault_handlers (state_of r) = fault_handlers s.
Proof.
  intros Hd Hfd Hsig Hold r. subst r.
  assert (Hu : to_unsigned d = d).
  { unfold to_unsigned. apply Z.mod_small. lia. }
  unfold faulthandler_dumpbacktrace_later.
  replace (d <=? 0) with false by lia.
  unfold bind, get_stderr, bind, call, ret.
  replace (stderr_fileno E =? -1) with false by lia.
  unfold signal. rewrite Hsig. cbn [Z.eqb].
  destruct (sa_handler (sig_disp s (SIGALRM P))); try contradiction;
    unfold modify, alarm, result_of, events_of, state_of;
    cbn [fst snd map app]; proc_simpl; rewrite Hu;
    (repeat split; try reflexivity;
     try (unfold upd; rewrite Z.eqb_refl; reflexivity);
     intros x Hx; unfold upd; replace (x =? SIGALRM P) with false by lia;
     reflexivity).
Qed.

(** X6.  With a positive delay, the two resource errors of
    [dumpbacktrace_later] leave the process as it was but for the error
    indicator: when stderr has no descriptor only stderr was flushed; when
    [signal] is refused nothing was installed.  In both cases [fault_alarm]
    keeps its former descriptor and fields and a timer armed earlier keeps
    running. *)
Theorem dumpbacktrace_later_resource_errors (d rep allt : Z) (s : proc) :
  0 < d ->
  (stderr_fileno E = -1 ->
   let r := faulthandler_dumpbacktrace_later P E d rep allt s in
   result_of r = Done None
   /\ events_of r = [EvFflushStderr]
   /\ state_of r
      = with_py_err
          (Some (PyExc_RuntimeError, "unable to get stderr file descriptor"%string)) s)
  /\
  (stderr_fileno E <> -1 -> sigaction_err E (SIGALRM P) <> 0 ->
   let r := faulthandler_dumpbacktrace_later P E d rep allt s in
   result_of r = Done None
   /\ events_of r = [EvFflushStderr; EvSignal (SIGALRM P) fn_faulthandler_alarm]
   /\ state_of r
      = with_py_err
          (Some (PyExc_RuntimeError, "unable to set SIGALRM handler"%string)) s).
Proof.
  intros Hd. split.
  - intros Hfd r. subst r. unfold faulthandler_dumpbacktrace_later.
    replace (d <=? 0) with false by lia.
    unfold bind, get_stderr, bind, call, ret. rewrite Hfd.
    repeat split; reflexivity.
  - intros Hfd Hsig r. subst r. unfold faulthandler_dumpbacktrace_later.
    replace (d <=? 0) with false by lia.
    unfold bind, get_stderr, bind, call, ret.
    replace (stderr_fileno E =? -1) with false by lia.
    unfold signal. replace (sigaction_err E (SIGALRM P) =? 0) with false by lia.
    repeat split; reflexivity.
Qed.

Lemma events_of_bind {A B} (m : M A) (k : A -> M B) s a s1 t1 :
  m s = (Done a, s1, t1) ->
  events_of (bind m k s) = map fst t1 ++ events_of (k a s1)
  /\ state_of (bind m k s) = state_of (k a s1)
  /\ result_of (bind m k s) = result_of (k a s1).
Proof.
  intros Hm. unfold bind. rewrite Hm.
  destruct (k a s1) as [[r s2] t2].
  unfold events_of, state_of, result_of. cbn [fst snd].
  rewrite map_app. repeat split; reflexivity.
Qed.

Lemma dumps_app es1 es2 : dumps (es1 ++ es2) = dumps es1 ++ dumps es2.
Proof.
  induction es1 as [|e es1 IH]; [reflexivity|].
  destruct e; cbn [app dumps]; rewrite ?IH; reflexivity.
Qed.

(** One expiry of a pending timer while [faulthandler_alarm] is the handler
    of SIGALRM and the current thread only is dumped. *)
Lemma timer_expires_run s :
  alarm_timer s <> 0 ->
  sa_handler (sig_disp s (SIGALRM P)) = fn_faulthandler_alarm ->
  all_threads (fault_alarm s) = 0 ->
  let secs := if repeat (fault_alarm s) =? 0 then 0 else delay (fault_alarm s) in
  timer_expires P E s
  = (Done tt, with_alarm_timer (to_unsigned secs) s,
     [(EvDumpBacktrace (fd (fault_alarm s)), with_alarm_timer 0 s);
      (EvAlarm secs, with_alarm_timer 0 s)]).
Proof.
  intros Ht Hh Hall.
  unfold timer_expires, bind at 1, get at 1.
  replace (alarm_timer s =? 0) with false by lia.
  unfold bind at 1, modify at 1, deliver, bind at 1, get at 1.
  proc_simpl. rewrite Hh.
  rewrite (alarm_run_current_thread E (SIGALRM P) (with_alarm_timer 0 s) Hall).
  reflexivity.
Qed.

Lemma timer_expiries_idle n : forall s,
  alarm_timer s = 0 -> timer_expiries P E n s = (Done tt, s, []).
Proof.
  induction n as [|n IH]; intros s Ht; [reflexivity|].
  cbn [timer_expiries]. unfold bind at 1, timer_expires, bind at 1, get at 1.
  rewrite Ht. cbn [Z.eqb ret]. rewrite (IH s Ht). reflexivity.
Qed.

(** One expiry of a pending timer while [faulthandler_alarm] is the handler
    of SIGALRM, all threads are to be dumped and there is no thread state. *)
Lemma timer_expires_no_thread_state s :
  alarm_timer s <> 0 ->
  sa_handler (sig_disp s (SIGALRM P)) = fn_faulthandler_alarm ->
  all_threads (fault_alarm s) <> 0 ->
  PyGILState_GetThisThreadState E = None ->
  timer_expires P E s = (Done tt, with_alarm_timer 0 s, []).
Proof.
  intros Ht Hh Hall Htls.
  unfold timer_expires, bind at 1, get at 1.
  replace (alarm_timer s =? 0) with false by lia.
  unfold bind at 1, modify at 1, deliver, bind at 1, get at 1.
  proc_simpl. rewrite Hh.
  rewrite (alarm_run_no_thread_state E (SIGALRM P) (with_alarm_timer 0 s) Hall Htls).
  reflexivity.
Qed.

(** C9.  A watchdog fire in the all-threads mode when the thread-local
    lookup gives no thread state: the pending timer runs out, SIGALRM
    reaches [faulthandler_alarm], and the handler returns at once.  The fire
    makes no call, so it emits no diagnostic; it sets no error; and nothing
    of the process changes but the timer, which is spent.  Without [repeat]
    no timer is pending afterwards (nor is one with [repeat], the handler
    not having set it again). *)
Theorem fire_without_thread_state_is_silent (s : proc) :
  alarm_timer s <> 0 ->
  sa_handler (sig_disp s (SIGALRM P)) = fn_faulthandler_alarm ->
  all_threads (fault_alarm s) <> 0 ->
  PyGILState_GetThisThreadState E = None ->
  let r := timer_expires P E s in
  result_of r = Done tt
  /\ events_of r = []
  /\ List.filter is_diagnostic (events_of r) = []
  /\ py_err (state_of r) = py_err s
  /\ (repeat (fault_alarm s) = 0 -> alarm_timer (state_of r) = 0)
  /\ state_of r = with_alarm_timer 0 s.
Proof.
  intros Ht Hh Hall Htls r. subst r.
  rewrite (timer_expires_no_thread_state s Ht Hh Hall Htls).
  repeat split; reflexivity.
Qed.

(** X7.  A watchdog armed without repeat fires once.  However many times the
    timer is given the occasion to run out, the stack of the current thread
    is dumped exactly once, to the descriptor stored when arming, and no
    timer is pending afterwards. *)
Theorem one_shot_watchdog_fires_once (n : nat) (s : proc) :
  alarm_timer s <> 0 ->
  sa_handler (sig_disp s (SIGALRM P)) = fn_faulthandler_alarm ->
  all_threads (fault_alarm s) = 0 ->
  repeat (fault_alarm s) = 0 ->
  let r := timer_expiries P E (S n) s in
  result_of r = Done tt
  /\ dumps (events_of r) = [fd (fault_alarm s)]
  /\ alarm_calls (events_of r) = [0]
  /\ state_of r = with_alarm_timer 0 s.
Proof.
  intros Ht Hh Hall Hrep r. subst r. cbn [timer_expiries].
  pose proof (timer_expires_run s Ht Hh Hall) as Hrun. cbv zeta in Hrun.
  rewrite Hrep in Hrun. cbn [Z.eqb] in Hrun.
  destruct (events_of_bind (timer_expires P E) (fun _ => timer_expiries P E n)
              s tt _ _ Hrun) as (Hev & Hst & Hres).
  rewrite Hev, Hst, Hres.
  rewrite timer_expiries_idle by reflexivity.
  repeat split; reflexivity.
Qed.

(** X8.  A watchdog armed with repeat keeps firing.  [n] expiries of the timer
    give [n] dumps, each followed by [alarm(delay)], and the timer is
    running again afterwards; [cancel_dumpbacktrace_later] then stops it
    for good. *)
Theorem repeating_watchdog_fires_until_canceled (n : nat) : forall s : proc,
  alarm_timer s <> 0 ->
  sa_handler (sig_disp s (SIGALRM P)) = fn_faulthandler_alarm ->
  all_threads (fault_alarm s) = 0 ->
  repeat (fault_alarm s) <> 0 ->
  0 < delay (fault_alarm s) < 2 ^ 32 ->
  let r := timer_expiries P E n s in
  let c := faulthandler_cancel_dumpbacktrace_later_py (state_of r) in
  result_of r = Done tt
  /\ dumps (events_of r) = replicate n (fd (fault_alarm s))
  /\ alarm_calls (events_of r) = replicate n (delay (fault_alarm s))
  /\ alarm_timer (state_of r)
     = (if Nat.eqb n 0 then alarm_timer s else delay (fault_alarm s))
  /\ result_of c = Done (Some Py_None)
  /\ alarm_timer (state_of c) = 0
  /\ (forall m, events_of (timer_expiries P E m (state_of c)) = []).
Proof.
  induction n as [|n IH]; intros s Ht Hh Hall Hrep Hd r c; subst r c.
  - cbn [timer_expiries].
    repeat split; try reflexivity.
    intros m. rewrite timer_expiries_idle by reflexivity. reflexivity.
  - cbn [timer_expiries].
    pose proof (timer_expires_run s Ht Hh Hall) as Hrun. cbv zeta in Hrun.
    replace (repeat (fault_alarm s) =? 0) with false in Hrun by lia.
    assert (Hu : to_unsigned (delay (fault_alarm s)) = delay (fault_alarm s)).
    { unfold to_unsigned. apply Z.mod_small. lia. }
    rewrite Hu in Hrun.
    destruct (events_of_bind (timer_expires P E) (fun _ => timer_expiries P E n)
                s tt _ _ Hrun) as (Hev & Hst & Hres).
    rewrite Hev, Hst, Hres.
    set (s1 := with_alarm_timer (delay (fault_alarm s)) s).
    destruct (IH s1) as (H1 & H2 & H3 & H4 & H5 & H6 & H7);
      try (subst s1; proc_simpl; first [assumption | lia]).
    change (fault_alarm s1) with (fault_alarm s) in *.
    change (alarm_timer s1) with (delay (fault_alarm s)) in *.
    split; [exact H1|].
    split; [rewrite dumps_app, H2; reflexivity|].
    split.
    { cbn [map fst app alarm_calls]. rewrite H3. reflexivity. }
    split.
    { rewrite H4. cbn [Nat.eqb]. destruct (Nat.eqb n 0); reflexivity. }
    split; [exact H5|]. split; [exact H6 | exact H7].
Qed.


Lemma unload_run (s : proc) :
  faulthandler_unload s
  = match ss_sp (stack s) with
    | Some ptr =>
        (Done tt, with_stack (with_ss_sp None (stack s)) (with_alarm_timer 0 s),
         [(EvAlarm 0, s); (EvFree ptr, with_alarm_timer 0 s)])
    | None => (Done tt, with_alarm_timer 0 s, [(EvAlarm 0, s)])
    end.
Proof.
  unfold faulthandler_unload, faulthandler_cancel_dumpbacktrace_later,
    bind, alarm, ret, get, PyMem_Free, call, modify.
  proc_simpl. destruct (ss_sp (stack s)); reflexivity.
Qed.

(** X10.  [faulthandler_unload], the function registered with Py_AtExit: it
    cancels the timer and, when a stack was allocated, frees it and forgets
    the pointer, so that a second run frees nothing.  It does not touch the
    dispositions, the Handler Table, the flag, or the signal stack the
    kernel has on record. *)
Theorem unload_frees_the_stack_once (s : proc) :
  let r := faulthandler_unload s in
  result_of r = Done tt
  /\ events_of r = EvAlarm 0 :: match ss_sp (stack s) with
                                | Some ptr => [EvFree ptr]
                                | None => []
                                end
  /\ alarm_timer (state_of r) = 0
  /\ ss_sp (stack (state_of r)) = None
  /\ events_of (faulthandler_unload (state_of r)) = [EvAlarm 0]
  /\ state_of (faulthandler_unload (state_of r)) = state_of r
  /\ sig_disp (state_of r) = sig_disp s
  /\ altstack (state_of r) = altstack s
  /\ fault_handlers (state_of r) = fault_handlers s
  /\ faulthandler_enabled (state_of r) = faulthandler_enabled s.
Proof.
  intros r. subst r. rewrite (unload_run s).
  destruct (ss_sp (stack s)) as [ptr|] eqn:Esp;
    unfold result_of, events_of, state_of; cbn [fst snd map];
    rewrite unload_run; proc_simpl; try rewrite Esp;
    repeat split; reflexivity.
Qed.

End WatchdogMore.

(** ** enable: what it installs *)

Section EnableMore.

Variable P : platform.
Variable E : environ.

Lemma install_all_lookup hs : forall d i h,
  NoDup (map signum hs) ->
  hs !! i = Some h ->
  fst (install_all P E hs d) !! i
  = Some (if sigaction_err E (signum h) =? 0
          then with_enabled 1 (with_previous (d (signum h)) h)
          else h).
Proof.
  induction hs as [|a hs IH]; intros d i h Hnd Hi; [discriminate|].
  cbn [map] in Hnd. apply NoDup_cons in Hnd. destruct Hnd as [Hnotin Hnd].
  cbn [install_all].
  destruct i as [|i].
  - injection Hi as ->.
    destruct (sigaction_err E (signum h) =? 0); reflexivity.
  - cbn in Hi.
    assert (Hne : signum h <> signum a).
    { intros Heq. apply Hnotin. rewrite <- Heq.
      apply list_elem_of_In, in_map, list_elem_of_In.
      eapply list_elem_of_lookup_2. exact Hi. }
    destruct (sigaction_err E (signum a) =? 0); cbn [fst];
      change ((?x :: ?l) !! S i) with (l !! i);
      rewrite (IH _ i h Hnd Hi); [|reflexivity].
    unfold upd. replace (signum h =? signum a) with false by lia. reflexivity.
Qed.

Lemma install_all_disp_out hs : forall d x,
  (~ In x (map signum hs) \/ sigaction_err E x <> 0) ->
  snd (install_all P E hs d) x = d x.
Proof.
  induction hs as [|a hs IH]; intros d x Hx; [reflexivity|].
  cbn [install_all].
  assert (Hx' : ~ In x (map signum hs) \/ sigaction_err E x <> 0).
  { destruct Hx as [Hx|Hx]; [left | right; exact Hx].
    intros Hin. apply Hx. right. exact Hin. }
  destruct (sigaction_err E (signum a) =? 0) eqn:Ea; cbn [snd]; rewrite IH by exact Hx';
    [|reflexivity].
  unfold upd. destruct (x =? signum a) eqn:Exa; [|reflexivity].
  exfalso. assert (x = signum a) by lia. subst x.
  destruct Hx as [Hx|Hx]; [apply Hx; left; reflexivity | lia].
Qed.

Lemma install_all_disp_in hs : forall d x,
  In x (map signum hs) -> sigaction_err E x = 0 ->
  snd (install_all P E hs d) x = fatal_action P.
Proof.
  induction hs as [|a hs IH]; intros d x Hin Herr; [destruct Hin|].
  cbn [install_all].
  destruct (in_dec Z.eq_dec x (map signum hs)) as [Hin'|Hnot].
  - destruct (sigaction_err E (signum a) =? 0); cbn [snd]; apply IH; assumption.
  - destruct Hin as [Heq|Hin]; [|contradiction]. subst x.
    replace (sigaction_err E (signum a) =? 0) with true by lia. cbn [snd].
    rewrite install_all_disp_out by (left; exact Hnot).
    unfold upd. rewrite Z.eqb_refl. reflexivity.
Qed.

(** X2.  What a successful [enable()] installs, the fault signals of the platform
    having pairwise different numbers.  Entry [i] of the table gets the
    [i]-th fault signal and the name chosen for it.  If the kernel accepts
    [sigaction] for that signal, the entry is enabled, its [previous] is the
    disposition the signal had before the call, and the signal now has the
    fault handler, on the alternate stack, with an empty mask.  If the
    kernel refuses, the entry stays disabled, its [previous] is left as it
    was, and the other entries are installed all the same.  No other
    signal's disposition changes. *)
Theorem enable_installs_each_accepted_signal (s : proc) :
  faulthandler_enabled s = 0 ->
  stderr_fileno E <> -1 ->
  length (fault_handlers s) = NFAULT_SIGNALS P ->
  NoDup (fault_signals P) ->
  let s' := state_of (faulthandler_enable P E s) in
  (forall i sig h0,
     fault_signals P !! i = Some sig ->
     fault_handlers s !! i = Some h0 ->
     fault_handlers s' !! i
     = Some {| signum := sig;
               enabled := if sigaction_err E sig =? 0 then 1 else 0;
               name := Some (handler_name P sig);
               previous := if sigaction_err E sig =? 0 then sig_disp s sig
                           else previous h0 |})
  /\ (forall x, x ∈ fault_signals P -> sigaction_err E x = 0 ->
        sig_disp s' x = fatal_action P)
  /\ (forall x, x ∉ fault_signals P \/ sigaction_err E x <> 0 ->
        sig_disp s' x = sig_disp s x).
Proof.
  intros Hdis Hfd Hlen Hnd s'. subst s'.
  destruct (enable_run P E s Hdis Hfd Hlen) as (t & -> & _).
  unfold state_of. cbn [fst snd].
  unfold after_install. proc_simpl.
  assert (Hsig : map signum (zip_with (fill_entry P) (fault_signals P) (fault_handlers s))
                 = fault_signals P)
    by (apply filled_signum; rewrite Hlen; reflexivity).
  split; [|split].
  - intros i sig h0 Hi Hh.
    assert (Hf : zip_with (fill_entry P) (fault_signals P) (fault_handlers s) !! i
                 = Some (fill_entry P sig h0)).
    { rewrite lookup_zip_with, Hi, Hh. reflexivity. }
    rewrite (install_all_lookup _ _ i _ ltac:(rewrite Hsig; exact Hnd) Hf).
    cbn [signum fill_entry].
    destruct (sigaction_err E sig =? 0); reflexivity.
  - intros x Hx Herr. apply install_all_disp_in; [|exact Herr].
    rewrite Hsig. apply list_elem_of_In. exact Hx.
  - intros x Hx. apply install_all_disp_out.
    rewrite Hsig. destruct Hx as [Hx|Hx]; [left | right; exact Hx].
    intros Hin. apply Hx, list_elem_of_In, Hin.
Qed.

(** X3.  The rest of a successful [enable()].  It flushes stderr and caches its
    descriptor, asks for SIGSTKSZ bytes, registers them as the signal stack
    when it got them, registers [faulthandler_unload] with Py_AtExit, and
    only then installs the handlers, in the order of [fault_signals].  A
    failed allocation or a refused [sigaltstack] is not an error: the signal
    stack on record is the former one and enable returns None all the
    same.  The watchdog and the error indicator are not touched. *)
Theorem enable_sets_up_stack_and_exit_hook (s : proc) :
  faulthandler_enabled s = 0 ->
  stderr_fileno E <> -1 ->
  length (fault_handlers s) = NFAULT_SIGNALS P ->
  let r := faulthandler_enable P E s in
  result_of r = Done (Some Py_None)
  /\ events_of r
     = [EvFflushStderr; EvMalloc (SIGSTKSZ P)]
       ++ match PyMem_Malloc_result E with
          | Some ptr =>
              [EvSigaltstack {| ss_sp := Some ptr; ss_flags := SS_ONSTACK P;
                                ss_size := SIGSTKSZ P |}]
          | None => []
          end
       ++ [EvAtExit fn_faulthandler_unload]
       ++ map (fun sig => EvSigaction sig (fatal_action P)) (fault_signals P)
  /\ fatal_error_fd (state_of r) = stderr_fileno E
  /\ stack (state_of r)
     = {| ss_sp := PyMem_Malloc_result E; ss_flags := SS_ONSTACK P;
          ss_size := SIGSTKSZ P |}
  /\ (forall ptr, PyMem_Malloc_result E = Some ptr -> sigaltstack_err E = 0 ->
        altstack (state_of r)
        = Some {| ss_sp := Some ptr; ss_flags := SS_ONSTACK P;
                  ss_size := SIGSTKSZ P |})
  /\ (PyMem_Malloc_result E = None \/ sigaltstack_err E <> 0 ->
        altstack (state_of r) = altstack s)
  /\ exitfuncs (state_of r) = exitfuncs s ++ [fn_faulthandler_unload]
  /\ fault_alarm (state_of r) = fault_alarm s
  /\ alarm_timer (state_of r) = alarm_timer s
  /\ py_err (state_of r) = py_err s.
Proof.
  intros Hdis Hfd Hlen r. subst r.
  destruct (enable_run P E s Hdis Hfd Hlen) as (t & -> & Hev).
  unfold result_of, events_of, state_of. cbn [fst snd map].
  rewrite Hev. unfold after_install, enable_install_calls, altstack_after.
  proc_simpl.
  split; [reflexivity|]. split; [reflexivity|]. split; [reflexivity|].
  split; [reflexivity|].
  split.
  { intros ptr -> Herr. replace (sigaltstack_err E =? 0) with true by lia.
    reflexivity. }
  split.
  { intros [->|Herr]; [reflexivity|].
    destruct (PyMem_Malloc_result E); [|reflexivity].
    replace (sigaltstack_err E =? 0) with false by lia. reflexivity. }
  repeat split; reflexivity.
Qed.

Lemma frees_app es1 es2 : frees (es1 ++ es2) = frees es1 ++ frees es2.
Proof.
  induction es1 as [|e es1 IH]; [reflexivity|].
  destruct e; cbn [app frees]; rewrite ?IH; reflexivity.
Qed.

Lemma frees_sigactions {A} (f : A -> Z) (g : A -> sigaction_t) (l : list A) :
  frees (map (fun a => EvSigaction (f a) (g a)) l) = [].
Proof. induction l as [|a l IH]; [reflexivity | exact IH]. Qed.

(** X4.  Enabling again after a disable asks for a second stack and registers
    [faulthandler_unload] a second time; neither enable nor disable ever
    frees memory.  [faulthandler_unload] then frees the block of the last
    enable only: the block of the first enable is not freed by anyone. *)
Theorem reenable_allocates_a_second_stack (E' E2 : environ) (s : proc) :
  faulthandler_enabled s = 0 ->
  stderr_fileno E <> -1 ->
  stderr_fileno E2 <> -1 ->
  length (fault_handlers s) = NFAULT_SIGNALS P ->
  let r1 := faulthandler_enable P E s in
  let r2 := faulthandler_disable P E' (state_of r1) in
  let r3 := faulthandler_enable P E2 (state_of r2) in
  result_of r3 = Done (Some Py_None)
  /\ frees (events_of r1 ++ events_of r2 ++ events_of r3) = []
  /\ ss_sp (stack (state_of r1)) = PyMem_Malloc_result E
  /\ ss_sp (stack (state_of r3)) = PyMem_Malloc_result E2
  /\ exitfuncs (state_of r3)
     = exitfuncs s ++ [fn_faulthandler_unload; fn_faulthandler_unload]
  /\ frees (events_of (faulthandler_unload (state_of r3)))
     = option_list (PyMem_Malloc_result E2).
Proof.
  intros Hdis Hfd Hfd2 Hlen r1 r2 r3.
  destruct (enable_run P E s Hdis Hfd Hlen) as (t1 & Hr1 & Hev1).
  assert (Hlen1 : length (fault_handlers (state_of r1)) = NFAULT_SIGNALS P).
  { subst r1. rewrite Hr1. unfold state_of. cbn [fst snd].
    unfold after_install. proc_simpl.
    match goal with
    | |- length ?l = _ =>
        transitivity (length (map signum l)); [symmetry; apply length_map|]
    end.
    rewrite install_all_signum, length_map.
    apply (length_filled P s Hlen). }
  assert (Hen1 : faulthandler_enabled (state_of r1) <> 0).
  { subst r1. rewrite Hr1. unfold state_of. cbn. discriminate. }
  destruct (disable_enabled_run P E' (state_of r1) Hen1 Hlen1) as (t2 & Hr2 & Hev2).
  assert (Hlen2 : length (fault_handlers (state_of r2)) = NFAULT_SIGNALS P).
  { subst r2. rewrite Hr2. unfold state_of at 1. cbn [fst snd]. proc_simpl.
    rewrite length_map. exact Hlen1. }
  assert (Hdis2 : faulthandler_enabled (state_of r2) = 0).
  { subst r2. rewrite Hr2. reflexivity. }
  destruct (enable_run P E2 (state_of r2) Hdis2 Hfd2 Hlen2) as (t3 & Hr3 & Hev3).
  assert (Hx2 : exitfuncs (state_of r2) = exitfuncs (state_of r1)).
  { subst r2. rewrite Hr2. reflexivity. }
  assert (Hx1 : exitfuncs (state_of r1) = exitfuncs s ++ [fn_faulthandler_unload]).
  { subst r1. rewrite Hr1. reflexivity. }
  assert (Hf1 : frees (events_of r1) = []).
  { subst r1. rewrite Hr1. unfold events_of. cbn [snd map frees].
    rewrite Hev1. unfold enable_install_calls. cbn [frees].
    rewrite frees_app. destruct (PyMem_Malloc_result E); cbn [frees app];
      apply frees_sigactions. }
  assert (Hf2 : frees (events_of r2) = []).
  { subst r2. rewrite Hr2. unfold events_of. cbn [snd].
    rewrite Hev2. unfold restore_calls. apply frees_sigactions. }
  assert (Hf3 : frees (events_of r3) = []).
  { subst r3. rewrite Hr3. unfold events_of. cbn [snd map frees].
    rewrite Hev3. unfold enable_install_calls. cbn [frees].
    rewrite frees_app. destruct (PyMem_Malloc_result E2); cbn [frees app];
      apply frees_sigactions. }
  split; [subst r3; rewrite Hr3; reflexivity|].
  split; [rewrite !frees_app, Hf1, Hf2, Hf3; reflexivity|].
  split; [subst r1; rewrite Hr1; reflexivity|].
  assert (Hsp3 : ss_sp (stack (state_of r3)) = PyMem_Malloc_result E2)
    by (subst r3; rewrite Hr3; reflexivity).
  split; [exact Hsp3|].
  split.
  { transitivity (exitfuncs (state_of r2) ++ [fn_faulthandler_unload]).
    - subst r3. rewrite Hr3. reflexivity.
    - rewrite Hx2, Hx1, <- app_assoc. reflexivity. }
  rewrite (unload_run (state_of r3)), Hsp3.
  destruct (PyMem_Malloc_result E2); reflexivity.
Qed.

End EnableMore.

(** ** Faults, deliveries and the life of the table *)

Section Lifecycle.

Variable P : platform.
Variable E : environ.



Lemma lookup_map_Some {A B} (f : A -> B) (l : list A) : forall j x,
  l !! j = Some x -> map f l !! j = Some (f x).
Proof.
  induction l as [|a l IH]; intros [|j] x Hj; try discriminate.
  - injection Hj as ->. reflexivity.
  - apply IH. exact Hj.
Qed.

Lemma after_install_signums s :
  length (fault_handlers s) = NFAULT_SIGNALS P ->
  map signum (fault_handlers (after_install P E s)) = fault_signals P.
Proof.
  intros Hlen. unfold after_install. proc_simpl.
  rewrite install_all_signum. apply filled_signum. rewrite Hlen. reflexivity.
Qed.

Lemma after_install_entry s i sig :
  length (fault_handlers s) = NFAULT_SIGNALS P ->
  NoDup (fault_signals P) ->
  fault_signals P !! i = Some sig ->
  sigaction_err E sig = 0 ->
  fault_handlers (after_install P E s) !! i
  = Some {| signum := sig; enabled := 1; name := Some (handler_name P sig);
            previous := sig_disp s sig |}.
Proof.
  intros Hlen Hnd Hi Herr.
  assert (Hsome : is_Some (fault_handlers s !! i)).
  { apply lookup_lt_is_Some. rewrite Hlen. apply lookup_lt_Some in Hi. exact Hi. }
  destruct Hsome as [h0 Hh].
  assert (Hf : zip_with (fill_entry P) (fault_signals P) (fault_handlers s) !! i
               = Some (fill_entry P sig h0)).
  { rewrite lookup_zip_with, Hi, Hh. reflexivity. }
  unfold after_install. proc_simpl.
  rewrite (install_all_lookup P E _ _ i _
             ltac:(rewrite filled_signum by (rewrite Hlen; reflexivity); exact Hnd) Hf).
  cbn [signum fill_entry]. rewrite Herr. reflexivity.
Qed.

(** X12.  A fault after [enable()] is reported once.  The fault signals having
    pairwise different numbers, take one the kernel accepted and whose
    disposition before enable was not a handler of handler.c.  Its first
    delivery runs the fault handler, which writes the message with the name
    of that signal to the descriptor cached by enable, calls the backtrace
    provider, and leaves the signal with exactly the disposition it had
    before enable.  A second delivery no longer reaches handler.c. *)
Theorem fault_after_enable_is_reported_once (s : proc) (sig : Z) :
  faulthandler_enabled s = 0 ->
  stderr_fileno E <> -1 ->
  length (fault_handlers s) = NFAULT_SIGNALS P ->
  NoDup (fault_signals P) ->
  sig ∈ fault_signals P ->
  sigaction_err E sig = 0 ->
  sa_handler (sig_disp s sig) <> fn_faulthandler_fatal_error ->
  sa_handler (sig_disp s sig) <> fn_faulthandler_alarm ->
  let s1 := state_of (faulthandler_enable P E s) in
  let r := deliver P E sig s1 in
  result_of r = Done tt
  /\ List.filter is_diagnostic (events_of r)
     = [EvWrite (stderr_fileno E) "Fatal Python error: ";
        EvWrite (stderr_fileno E) (handler_name P sig);
        EvWrite (stderr_fileno E) (NL +:+ NL);
        EvDumpBacktrace (stderr_fileno E)]
  /\ sig_disp (state_of r) sig = sig_disp s sig
  /\ deliver P E sig (state_of r) = (Done tt, state_of r, []).
Proof.
  intros Hdis Hfd Hlen Hnd Hin Herr Hnf Hna s1 r.
  destruct (enable_run P E s Hdis Hfd Hlen) as (t & Hrun & _).
  set (s0 := with_faulthandler_enabled 1 (with_fatal_error_fd (stderr_fileno E) s))
    in Hrun.
  assert (Hs1 : s1 = after_install P E s0) by (subst s1; rewrite Hrun; reflexivity).
  clearbody s1. subst s1.
  assert (Hlen0 : length (fault_handlers s0) = NFAULT_SIGNALS P) by exact Hlen.
  apply list_elem_of_lookup_1 in Hin. destruct Hin as [i Hi].
  pose proof (after_install_entry s0 i sig Hlen0 Hnd Hi Herr) as Hentry.
  change (sig_disp s0 sig) with (sig_disp s sig) in Hentry.
  set (h1 := {| signum := sig; enabled := 1; name := Some (handler_name P sig);
                previous := sig_disp s sig |}) in Hentry.
  assert (Hfind : search_handler (fault_handlers (after_install P E s0)) sig 0
                    (NFAULT_SIGNALS P) None = Some i).
  { apply (search_handler_first _ sig i h1 Hentry eq_refl).
    - intros j h' Hj Hh' Heq.
      assert (Hsj : fault_signals P !! j = Some sig).
      { rewrite <- (after_install_signums s0 Hlen0), <- Heq.
        apply lookup_map_Some. exact Hh'. }
      pose proof (NoDup_lookup _ _ _ _ Hnd Hi Hsj). lia.
    - apply lookup_lt_Some in Hi. unfold NFAULT_SIGNALS. lia. }
  assert (Hdisp : sig_disp (after_install P E s0) sig = fatal_action P).
  { unfold after_install. proc_simpl. apply install_all_disp_in; [|exact Herr].
    rewrite filled_signum by (rewrite Hlen0; reflexivity).
    apply list_elem_of_In. eapply list_elem_of_lookup_2. exact Hi. }
  pose proof (fatal_error_run P E (after_install P E s0) sig i h1 Hfind Hentry)
    as Hfe. cbv zeta in Hfe.
  change (signum h1) with sig in Hfe. change (previous h1) with (sig_disp s sig) in Hfe.
  change (name h1) with (Some (handler_name P sig)) in Hfe.
  rewrite Herr in Hfe. cbn [Z.eqb] in Hfe.
  change (fatal_error_fd (after_install P E s0)) with (stderr_fileno E) in Hfe.
  assert (Hr : r = faulthandler_fatal_error P E sig (after_install P E s0)).
  { subst r. unfold deliver, bind, get. rewrite Hdisp. cbn [sa_handler fatal_action].
    destruct (faulthandler_fatal_error P E sig (after_install P E s0)) as [[o s2] t2].
    reflexivity. }
  rewrite Hr, Hfe. clear Hr Hfe r.
  unfold result_of, events_of, state_of. cbn [fst snd map List.filter is_diagnostic].
  split; [reflexivity|]. split; [reflexivity|].
  assert (Hafter : forall d0 tb,
            sig_disp (with_fault_handlers tb
                        (with_sig_disp (upd d0 sig (sig_disp s sig))
                           (after_install P E s0))) sig = sig_disp s sig).
  { intros d0 tb. proc_simpl. unfold upd. rewrite Z.eqb_refl. reflexivity. }
  split; [apply Hafter|].
  unfold deliver, bind, get. rewrite Hafter.
  destruct (sa_handler (sig_disp s sig)); try contradiction; reflexivity.
Qed.

Lemma populated_map_enabled v tbl :
  populated P tbl -> populated P (map (with_enabled v) tbl).
Proof.
  unfold populated. induction 1 as [|sig h sigs tbl [H1 H2] _ IH]; cbn [map].
  - constructor.
  - constructor; [split; assumption | exact IH].
Qed.

Lemma populated_insert_enabled v tbl : forall i h,
  populated P tbl -> tbl !! i = Some h ->
  populated P (<[i := with_enabled v h]> tbl).
Proof.
  unfold populated. intros i h Hp. revert i h.
  induction Hp as [|sig a sigs tbl [H1 H2] Hp IH]; intros [|i] h Hi;
    try discriminate.
  - injection Hi as ->. constructor; [split; assumption | exact Hp].
  - constructor; [split; assumption | apply IH; exact Hi].
Qed.

(** X13.  Once the table is filled (it is after the first successful enable),
    it stays filled: no function of handler.c changes a signal number or a
    name in it, and none of them runs into undefined behaviour, neither an
    index outside the table nor a write of a NULL name. *)
Theorem table_stays_filled_without_undefined_behaviour (s : proc) :
  populated P (fault_handlers s) ->
  runs_well P (faulthandler_enable P E) s
  /\ runs_well P (faulthandler_disable P E) s
  /\ (forall sig, runs_well P (faulthandler_fatal_error P E sig) s)
  /\ (forall sig, runs_well P (faulthandler_alarm E sig) s)
  /\ (forall d rep allt, runs_well P (faulthandler_dumpbacktrace_later P E d rep allt) s)
  /\ runs_well P faulthandler_cancel_dumpbacktrace_later_py s
  /\ runs_well P faulthandler_isenabled s
  /\ runs_well P faulthandler_unload s
  /\ runs_well P faulthandler_init s.
Proof.
  intros Hpop. pose proof (populated_length P _ Hpop) as Hlen.
  unfold runs_well.
  split; [|split; [|split; [|split; [|split]]]].
  - destruct (decide (faulthandler_enabled s = 0)) as [Hdis|Hen].
    + destruct (decide (stderr_fileno E = -1)) as [Hfd|Hfd].
      * rewrite (enable_no_stderr P E s Hdis Hfd). split; [exact Hpop | discriminate].
      * split; [apply enable_populates; assumption|].
        destruct (enable_run P E s Hdis Hfd Hlen) as (t & -> & _). discriminate.
    + rewrite (enable_already_enabled P E s Hen). split; [exact Hpop | discriminate].
  - destruct (decide (faulthandler_enabled s = 0)) as [Hdis|Hen].
    + unfold faulthandler_disable, bind, get, ret. rewrite Hdis.
      split; [exact Hpop | discriminate].
    + destruct (disable_enabled_run P E s Hen Hlen) as (t & -> & _).
      split; [|discriminate].
      unfold state_of. cbn [fst snd]. proc_simpl.
      apply populated_map_enabled. exact Hpop.
  - intros sig.
    destruct (search_handler_total (fault_handlers s) sig (NFAULT_SIGNALS P) 0 None)
      as (i & h & Hfind & Hi).
    { rewrite Hlen. lia. }
    { pose proof (NFAULT_SIGNALS_ge_2 P). lia. }
    destruct (populated_lookup P _ _ _ Hpop Hi) as (x & _ & _ & Hname).
    pose proof (fatal_error_run P E s sig i h Hfind Hi) as Hrun. cbv zeta in Hrun.
    rewrite Hname in Hrun. rewrite Hrun.
    split; [|discriminate].
    unfold state_of. cbn [fst snd]. proc_simpl.
    destruct (sigaction_err E (signum h) =? 0); proc_simpl;
      apply populated_insert_enabled; assumption.
  - intros sig.
    destruct (decide (all_threads (fault_alarm s) = 0)) as [Hall|Hall].
    + rewrite (alarm_run_current_thread E sig s Hall).
      split; [exact Hpop | discriminate].
    + destruct (PyGILState_GetThisThreadState E) as [tstate|] eqn:Htls.
      * rewrite (alarm_run_all_threads E sig s tstate Hall Htls).
        split; [exact Hpop | discriminate].
      * rewrite (alarm_run_no_thread_state E sig s Hall Htls).
        split; [exact Hpop | discriminate].
  - intros d rep allt.
    unfold faulthandler_dumpbacktrace_later.
    destruct (d <=? 0); [split; [exact Hpop | discriminate]|].
    unfold bind, get_stderr, bind, call, ret.
    destruct (stderr_fileno E =? -1); [split; [exact Hpop | discriminate]|].
    unfold signal.
    destruct (sigaction_err E (SIGALRM P) =? 0);
      [destruct (sa_handler (sig_disp s (SIGALRM P)))|];
      (split; [exact Hpop | discriminate]).
  - repeat split; try exact Hpop; try discriminate.
    rewrite unload_run. destruct (ss_sp (stack s)); exact Hpop.
    rewrite unload_run. destruct (ss_sp (stack s)); discriminate.
Qed.

Lemma restore_entry_enabled (E0 : environ) d h :
  enabled h <> 0 -> sigaction_err E0 (signum h) = 0 ->
  restore_entry E0 d h (signum h) = previous h.
Proof.
  intros Hen Herr. unfold restore_entry.
  replace (enabled h =? 0) with false by lia. rewrite Herr. cbn [Z.eqb].
  unfold upd. rewrite Z.eqb_refl. reflexivity.
Qed.

Lemma install_all_app l1 : forall l2 d,
  install_all P E (l1 ++ l2) d
  = (fst (install_all P E l1 d)
       ++ fst (install_all P E l2 (snd (install_all P E l1 d))),
     snd (install_all P E l2 (snd (install_all P E l1 d)))).
Proof.
  induction l1 as [|a l1 IH]; intros l2 d.
  - cbn. destruct (install_all P E l2 d). reflexivity.
  - cbn [app install_all].
    destruct (sigaction_err E (signum a) =? 0); rewrite IH; reflexivity.
Qed.

Lemma fault_signals_split :
  fault_signals P = other_fault_signals P ++ [SIGSEGV P].
Proof.
  unfold fault_signals, other_fault_signals. rewrite <- !app_assoc. reflexivity.
Qed.

Lemma split_last_entry (tbl : list fault_handler_t) (n : nat) :
  length tbl = (n + 1)%nat ->
  exists front b, tbl = front ++ [b] /\ length front = n.
Proof.
  intros Hlen. exists (take n tbl).
  destruct (drop n tbl) as [|b [|c rest]] eqn:Hd.
  - apply (f_equal length) in Hd. rewrite length_drop in Hd. cbn in Hd. lia.
  - exists b. split; [|rewrite length_take; lia].
    rewrite <- Hd. symmetry. apply take_drop.
  - apply (f_equal length) in Hd. rewrite length_drop in Hd. cbn in Hd. lia.
Qed.

(** X14.  Where the round trip stops.  If SIGSEGV has the same number as another
    fault signal of the platform, [disable()] after [enable()] does not give
    that signal its former disposition back: enable recorded, as [previous]
    of the SIGSEGV entry, the fault handler it had just installed through
    the other entry, and disable, restoring in table order, puts that one
    in last.  The fault handler stays installed. *)
Theorem disable_after_enable_with_aliased_segv (E' : environ) (s : proc) :
  faulthandler_enabled s = 0 ->
  stderr_fileno E <> -1 ->
  length (fault_handlers s) = NFAULT_SIGNALS P ->
  SIGSEGV P ∈ other_fault_signals P ->
  sigaction_err E (SIGSEGV P) = 0 ->
  sigaction_err E' (SIGSEGV P) = 0 ->
  let s1 := state_of (faulthandler_enable P E s) in
  let s2 := state_of (faulthandler_disable P E' s1) in
  (exists h, last (fault_handlers s1) = Some h
             /\ signum h = SIGSEGV P /\ enabled h = 1
             /\ previous h = fatal_action P)
  /\ faulthandler_enabled s2 = 0
  /\ sig_disp s2 (SIGSEGV P) = fatal_action P.
Proof.
  intros Hdis Hfd Hlen Halias Herr Herr' s1 s2.
  destruct (enable_run P E s Hdis Hfd Hlen) as (t & Hrun & _).
  set (s0 := with_faulthandler_enabled 1 (with_fatal_error_fd (stderr_fileno E) s))
    in Hrun.
  assert (Hs1 : s1 = after_install P E s0) by (subst s1; rewrite Hrun; reflexivity).
  subst s0. clear Hrun.
  assert (Hlenf : length (fault_handlers s) = (length (other_fault_signals P) + 1)%nat).
  { rewrite Hlen. unfold NFAULT_SIGNALS. rewrite fault_signals_split, length_app.
    reflexivity. }
  destruct (split_last_entry _ _ Hlenf) as (front & b & Htbl & Hfront).
  set (ffront := zip_with (fill_entry P) (other_fault_signals P) front).
  assert (Hfilled : zip_with (fill_entry P) (fault_signals P) (fault_handlers s)
                    = ffront ++ [fill_entry P (SIGSEGV P) b]).
  { rewrite Htbl, fault_signals_split.
    rewrite zip_with_app by (symmetry; exact Hfront). reflexivity. }
  assert (Hsigf : map signum ffront = other_fault_signals P).
  { subst ffront. apply filled_signum. symmetry. exact Hfront. }
  set (d1 := snd (install_all P E ffront (sig_disp s))).
  assert (Hd1 : d1 (SIGSEGV P) = fatal_action P).
  { subst d1. apply install_all_disp_in; [|exact Herr].
    rewrite Hsigf. apply list_elem_of_In. exact Halias. }
  set (hlast := with_enabled 1
                  (with_previous (fatal_action P) (fill_entry P (SIGSEGV P) b))).
  assert (Htbl1 : fault_handlers s1
                  = fst (install_all P E ffront (sig_disp s)) ++ [hlast]).
  { rewrite Hs1. unfold after_install. proc_simpl.
    rewrite Hfilled, install_all_app. cbn [fst install_all signum fill_entry].
    rewrite Herr. cbn [fst]. fold d1. rewrite Hd1. reflexivity. }
  assert (Hdisp1 : sig_disp s1 = upd d1 (SIGSEGV P) (fatal_action P)).
  { rewrite Hs1. unfold after_install. proc_simpl.
    rewrite Hfilled, install_all_app. cbn [snd install_all signum fill_entry].
    rewrite Herr. reflexivity. }
  split.
  { exists hlast. rewrite Htbl1, last_snoc. repeat split; reflexivity. }
  destruct (disable_enabled_run P E' s1) as (t' & Hd & _).
  { rewrite Hs1. cbn. discriminate. }
  { rewrite Htbl1, length_app. cbn [length].
    transitivity (length (map signum (fst (install_all P E ffront (sig_disp s)))) + 1)%nat;
      [rewrite length_map; reflexivity|].
    rewrite install_all_signum, Hsigf. unfold NFAULT_SIGNALS.
    rewrite fault_signals_split, length_app. reflexivity. }
  subst s2. rewrite Hd. unfold state_of. cbn [fst snd]. proc_simpl.
  split; [reflexivity|].
  rewrite Htbl1. unfold restore_all. rewrite fold_left_app. cbn [fold_left].
  apply (restore_entry_enabled E' _ hlast); [discriminate | exact Herr'].
Qed.

End Lifecycle.

(** ** The further properties at concrete processes *)

Lemma linux_fault_signals : fault_signals linux = [7; 4; 8; 11].
Proof. reflexivity. Qed.

Lemma linux_fault_signals_NoDup : NoDup (fault_signals linux).
Proof.
  rewrite linux_fault_signals.
  repeat (apply NoDup_cons_2;
          [intros Hx; apply list_elem_of_In in Hx; cbn in Hx; intuition discriminate|]).
  apply NoDup_nil_2.
Qed.

Lemma app_proc_length : length (fault_handlers app_proc) = NFAULT_SIGNALS linux.
Proof. vm_compute. reflexivity. Qed.

Lemma disable_after_enable_restores_witness :
  faulthandler_enabled app_proc = 0
  /\ stderr_fileno env_ok <> -1
  /\ NoDup (fault_signals linux)
  /\ forall x,
       sig_disp (state_of (faulthandler_disable linux env_ok
                             (state_of (faulthandler_enable linux env_ok app_proc)))) x
       = sig_disp app_proc x.
Proof.
  assert (Hfd : stderr_fileno env_ok <> -1) by discriminate.
  split; [reflexivity|]. split; [exact Hfd|].
  split; [exact linux_fault_signals_NoDup|].
  exact (disable_after_enable_restores linux env_ok env_ok app_proc eq_refl Hfd
           app_proc_length linux_fault_signals_NoDup (fun x => eq_refl)).
Defined.

Lemma enable_installs_each_accepted_signal_witness :
  faulthandler_enabled app_proc = 0
  /\ stderr_fileno env_refuses_bus <> -1
  /\ fault_handlers (state_of (faulthandler_enable linux env_refuses_bus app_proc))
       !! 0%nat
     = Some {| signum := 7; enabled := 0; name := Some "Bus error"%string;
               previous := default_action |}
  /\ fault_handlers (state_of (faulthandler_enable linux env_refuses_bus app_proc))
       !! 3%nat
     = Some {| signum := 11; enabled := 1; name := Some "Segmentation fault"%string;
               previous := app_segv_action |}
  /\ sig_disp (state_of (faulthandler_enable linux env_refuses_bus app_proc)) 11
     = fatal_action linux
  /\ sig_disp (state_of (faulthandler_enable linux env_refuses_bus app_proc)) 7
     = sig_disp app_proc 7.
Proof.
  assert (Hfd : stderr_fileno env_refuses_bus <> -1) by discriminate.
  pose proof (enable_installs_each_accepted_signal linux env_refuses_bus app_proc
                eq_refl Hfd app_proc_length linux_fault_signals_NoDup) as H.
  cbv zeta in H. destruct H as (Hentry & Hin & Hout).
  split; [reflexivity|]. split; [exact Hfd|].
  split; [exact (Hentry 0%nat 7 _ eq_refl eq_refl)|].
  split; [exact (Hentry 3%nat 11 _ eq_refl eq_refl)|].
  split.
  - apply Hin; [|reflexivity].
    apply (list_elem_of_lookup_2 _ 3%nat). reflexivity.
  - apply Hout. right. discriminate.
Defined.

Lemma enable_sets_up_stack_and_exit_hook_witness :
  faulthandler_enabled app_proc = 0
  /\ stderr_fileno env_all_fail <> -1
  /\ result_of (faulthandler_enable linux env_all_fail app_proc) = Done (Some Py_None)
  /\ altstack (state_of (faulthandler_enable linux env_all_fail app_proc))
     = altstack app_proc
  /\ altstack (state_of (faulthandler_enable linux env_ok app_proc))
     = Some {| ss_sp := Some 4096; ss_flags := 1; ss_size := 8192 |}
  /\ exitfuncs (state_of (faulthandler_enable linux env_ok app_proc))
     = exitfuncs app_proc ++ [fn_faulthandler_unload].
Proof.
  assert (Hfd : stderr_fileno env_all_fail <> -1) by discriminate.
  assert (Hfd' : stderr_fileno env_ok <> -1) by discriminate.
  pose proof (enable_sets_up_stack_and_exit_hook linux env_all_fail app_proc
                eq_refl Hfd app_proc_length) as H.
  pose proof (enable_sets_up_stack_and_exit_hook linux env_ok app_proc
                eq_refl Hfd' app_proc_length) as H'.
  cbv zeta in H, H'.
  destruct H as (Hres & _ & _ & _ & _ & Hnone & _).
  destruct H' as (_ & _ & _ & _ & Hsome & _ & Hexit & _).
  split; [reflexivity|]. split; [exact Hfd|]. split; [exact Hres|].
  split; [apply Hnone; left; reflexivity|].
  split; [exact (Hsome 4096 eq_refl eq_refl) | exact Hexit].
Defined.

Lemma reenable_allocates_a_second_stack_witness :
  faulthandler_enabled app_proc = 0
  /\ ss_sp (stack (state_of (faulthandler_enable linux env_ok app_proc))) = Some 4096
  /\ frees (events_of
              (faulthandler_unload
                 (state_of
                    (faulthandler_enable linux env_ok_later
                       (state_of
                          (faulthandler_disable linux env_ok
                             (state_of (faulthandler_enable linux env_ok app_proc))))))))
     = [16384].
Proof.
  assert (Hfd : stderr_fileno env_ok <> -1) by discriminate.
  assert (Hfd' : stderr_fileno env_ok_later <> -1) by discriminate.
  pose proof (reenable_allocates_a_second_stack linux env_ok env_ok env_ok_later
                app_proc eq_refl Hfd Hfd' app_proc_length) as H.
  cbv zeta in H. destruct H as (_ & _ & H1 & _ & _ & Hfree).
  split; [reflexivity|]. split; [exact H1 | exact Hfree].
Defined.

Lemma dumpbacktrace_later_arms_witness :
  0 < 5 < 2 ^ 31
  /\ stderr_fileno env_ok <> -1
  /\ fault_alarm (state_of (faulthandler_dumpbacktrace_later linux env_ok 5 1 0 app_proc))
     = {| fd := 2; delay := 5; repeat := 1; all_threads := 0 |}
  /\ alarm_timer (state_of (faulthandler_dumpbacktrace_later linux env_ok 5 1 0 app_proc))
     = 5
  /\ sig_disp (state_of (faulthandler_dumpbacktrace_later linux env_ok 5 1 0 app_proc)) 14
     = {| sa_handler := fn_faulthandler_alarm; sa_mask := [14];
          sa_flags := 268435456 |}.
Proof.
  assert (Hd : 0 < 5 < 2 ^ 31) by (split; reflexivity).
  assert (Hfd : stderr_fileno env_ok <> -1) by discriminate.
  pose proof (dumpbacktrace_later_arms linux env_ok 5 1 0 app_proc Hd Hfd eq_refl
                ltac:(discriminate)) as H.
  cbv zeta in H. destruct H as (_ & _ & Hfa & Hdisp & _ & Ht & _).
  split; [exact Hd|]. split; [exact Hfd|]. split; [exact Hfa|].
  split; [exact Ht | exact Hdisp].
Defined.

Lemma dumpbacktrace_later_resource_errors_witness :
  0 < 3
  /\ stderr_fileno env_no_stderr = -1
  /\ state_of (faulthandler_dumpbacktrace_later linux env_no_stderr 3 0 0 armed_proc)
     = with_py_err
         (Some (PyExc_RuntimeError, "unable to get stderr file descriptor"%string))
         armed_proc
  /\ sigaction_err env_all_fail 14 <> 0
  /\ events_of (faulthandler_dumpbacktrace_later linux env_all_fail 3 0 0 armed_proc)
     = [EvFflushStderr; EvSignal 14 fn_faulthandler_alarm].
Proof.
  assert (Hd : 0 < 3) by reflexivity.
  assert (Hfd : stderr_fileno env_all_fail <> -1) by discriminate.
  assert (Herr : sigaction_err env_all_fail 14 <> 0) by discriminate.
  destruct (dumpbacktrace_later_resource_errors linux env_no_stderr 3 0 0 armed_proc Hd)
    as (H1 & _).
  destruct (dumpbacktrace_later_resource_errors linux env_all_fail 3 0 0 armed_proc Hd)
    as (_ & H2).
  specialize (H1 eq_refl). specialize (H2 Hfd Herr). cbv zeta in H1, H2.
  destruct H1 as (_ & _ & Hs). destruct H2 as (_ & Hev & _).
  split; [exact Hd|]. split; [reflexivity|]. split; [exact Hs|].
  split; [exact Herr | exact Hev].
Defined.

Lemma armed_once_proc_state :
  fault_alarm armed_once_proc = {| fd := 2; delay := 2; repeat := 0; all_threads := 0 |}
  /\ alarm_timer armed_once_proc = 2
  /\ sa_handler (sig_disp armed_once_proc (SIGALRM linux)) = fn_faulthandler_alarm.
Proof. repeat split; vm_compute; reflexivity. Qed.

Lemma armed_every_second_proc_state :
  fault_alarm armed_every_second_proc
  = {| fd := 2; delay := 1; repeat := 1; all_threads := 0 |}
  /\ alarm_timer armed_every_second_proc = 1
  /\ sa_handler (sig_disp armed_every_second_proc (SIGALRM linux))
     = fn_faulthandler_alarm.
Proof. repeat split; vm_compute; reflexivity. Qed.

Lemma one_shot_watchdog_fires_once_witness :
  alarm_timer armed_once_proc <> 0
  /\ repeat (fault_alarm armed_once_proc) = 0
  /\ dumps (events_of (timer_expiries linux env_ok 3 armed_once_proc)) = [2]
  /\ state_of (timer_expiries linux env_ok 3 armed_once_proc)
     = with_alarm_timer 0 armed_once_proc.
Proof.
  destruct armed_once_proc_state as (Hfa & Ht & Hh).
  assert (Ht0 : alarm_timer armed_once_proc <> 0) by (rewrite Ht; discriminate).
  assert (Hall : all_threads (fault_alarm armed_once_proc) = 0)
    by (rewrite Hfa; reflexivity).
  assert (Hrep : repeat (fault_alarm armed_once_proc) = 0)
    by (rewrite Hfa; reflexivity).
  pose proof (one_shot_watchdog_fires_once linux env_ok 2 armed_once_proc
                Ht0 Hh Hall Hrep) as H.
  cbv zeta in H. destruct H as (_ & Hd & _ & Hs).
  split; [exact Ht0|]. split; [exact Hrep|].
  split; [rewrite Hd, Hfa; reflexivity | exact Hs].
Defined.

Lemma repeating_watchdog_fires_until_canceled_witness :
  alarm_timer armed_every_second_proc <> 0
  /\ repeat (fault_alarm armed_every_second_proc) <> 0
  /\ dumps (events_of (timer_expiries linux env_ok 4 armed_every_second_proc))
     = [2; 2; 2; 2]
  /\ alarm_timer (state_of (timer_expiries linux env_ok 4 armed_every_second_proc)) = 1
  /\ alarm_timer
       (state_of
          (faulthandler_cancel_dumpbacktrace_later_py
             (state_of (timer_expiries linux env_ok 4 armed_every_second_proc))))
     = 0.
Proof.
  destruct armed_every_second_proc_state as (Hfa & Ht & Hh).
  assert (Ht0 : alarm_timer armed_every_second_proc <> 0)
    by (rewrite Ht; discriminate).
  assert (Hall : all_threads (fault_alarm armed_every_second_proc) = 0)
    by (rewrite Hfa; reflexivity).
  assert (Hrep : repeat (fault_alarm armed_every_second_proc) <> 0)
    by (rewrite Hfa; discriminate).
  assert (Hd : 0 < delay (fault_alarm armed_every_second_proc) < 2 ^ 32)
    by (rewrite Hfa; split; reflexivity).
  pose proof (repeating_watchdog_fires_until_canceled linux env_ok 4
                armed_every_second_proc Ht0 Hh Hall Hrep Hd) as H.
  cbv zeta in H. destruct H as (_ & Hdumps & _ & Htimer & _ & Hcancel & _).
  split; [exact Ht0|]. split; [exact Hrep|].
  split; [rewrite Hdumps, Hfa; reflexivity|].
  split; [rewrite Htimer, Hfa; reflexivity | exact Hcancel].
Defined.






Lemma fault_after_enable_is_reported_once_witness :
  faulthandler_enabled app_proc = 0
  /\ sig_disp (state_of (deliver linux env_ok 11
                           (state_of (faulthandler_enable linux env_ok app_proc)))) 11
     = app_segv_action
  /\ List.filter is_diagnostic
       (events_of (deliver linux env_ok 11
                     (state_of (faulthandler_enable linux env_ok app_proc))))
     = [EvWrite 2 "Fatal Python error: "; EvWrite 2 "Segmentation fault";
        EvWrite 2 (NL +:+ NL); EvDumpBacktrace 2].
Proof.
  assert (Hfd : stderr_fileno env_ok <> -1) by discriminate.
  assert (Hin : 11 ∈ fault_signals linux)
    by (apply (list_elem_of_lookup_2 _ 3%nat); reflexivity).
  pose proof (fault_after_enable_is_reported_once linux env_ok app_proc 11
                eq_refl Hfd app_proc_length linux_fault_signals_NoDup Hin eq_refl
                ltac:(discriminate) ltac:(discriminate)) as H.
  cbv zeta in H. destruct H as (_ & Hev & Hdisp & _).
  split; [reflexivity|]. split; [exact Hdisp | exact Hev].
Defined.

Lemma table_stays_filled_without_undefined_behaviour_witness :
  populated linux (fault_handlers app_enabled_proc)
  /\ runs_well linux (faulthandler_fatal_error linux env_ok 11) app_enabled_proc
  /\ runs_well linux (faulthandler_disable linux env_ok) app_enabled_proc.
Proof.
  pose proof (table_stays_filled_without_undefined_behaviour linux env_ok
                app_enabled_proc app_enabled_proc_populated) as H.
  destruct H as (_ & Hd & Hf & _).
  split; [exact app_enabled_proc_populated|].
  split; [exact (Hf 11) | exact Hd].
Defined.

Lemma aliased_proc_length :
  length (fault_handlers (static_proc aliased_platform)) = NFAULT_SIGNALS aliased_platform.
Proof. vm_compute. reflexivity. Qed.

Lemma disable_after_enable_with_aliased_segv_witness :
  faulthandler_enabled (static_proc aliased_platform) = 0
  /\ SIGSEGV aliased_platform ∈ other_fault_signals aliased_platform
  /\ sig_disp (static_proc aliased_platform) 11 = default_action
  /\ sig_disp
       (state_of
          (faulthandler_disable aliased_platform env_ok
             (state_of (faulthandler_enable aliased_platform env_ok
                          (static_proc aliased_platform)))))
       (SIGSEGV aliased_platform)
     = fatal_action aliased_platform.
Proof.
  assert (Hfd : stderr_fileno env_ok <> -1) by discriminate.
  assert (Hin : SIGSEGV aliased_platform ∈ other_fault_signals aliased_platform)
    by (apply (list_elem_of_lookup_2 _ 0%nat); reflexivity).
  pose proof (disable_after_enable_with_aliased_segv aliased_platform env_ok env_ok
                (static_proc aliased_platform) eq_refl Hfd aliased_proc_length
                Hin eq_refl eq_refl) as H.
  cbv zeta in H. destruct H as (_ & _ & Hdisp).
  split; [reflexivity|]. split; [exact Hin|]. split; [reflexivity | exact Hdisp].
Defined.

Lemma fire_without_thread_state_is_silent_witness :
  alarm_timer armed_proc <> 0
  /\ all_threads (fault_alarm armed_proc) <> 0
  /\ repeat (fault_alarm armed_proc) = 0
  /\ PyGILState_GetThisThreadState env_no_tstate = None
  /\ events_of (timer_expires linux env_no_tstate armed_proc) = []
  /\ alarm_timer (state_of (timer_expires linux env_no_tstate armed_proc)) = 0
  /\ state_of (timer_expires linux env_no_tstate armed_proc) = fired_proc.
Proof.
  destruct armed_proc_state as (Hfa & Ht & Hh).
  assert (Ht0 : alarm_timer armed_proc <> 0) by (rewrite Ht; discriminate).
  assert (Hall : all_threads (fault_alarm armed_proc) <> 0)
    by (rewrite Hfa; discriminate).
  assert (Hrep : repeat (fault_alarm armed_proc) = 0) by (rewrite Hfa; reflexivity).
  pose proof (fire_without_thread_state_is_silent linux env_no_tstate armed_proc
                Ht0 Hh Hall eq_refl) as H.
  cbv zeta in H. destruct H as (_ & Hev & _ & _ & Htimer & Hs).
  split; [exact Ht0|]. split; [exact Hall|]. split; [exact Hrep|].
  split; [reflexivity|]. split; [exact Hev|].
  split; [exact (Htimer Hrep) | exact Hs].
Defined.
